(** * image_proc::CropNonZeroNode: the image callback, embedded and verified

    Source: [src/image_proc/src/crop_non_zero.cpp].

    The node subscribes to a raw image topic and, for each message, publishes
    the sub-image bounded by the largest contour of its non-zero region.  The
    callback [CropNonZeroNode::imageCb] (lines 88-139) is embedded below line
    by line.  The routines it calls from cv_bridge, sensor_msgs and OpenCV are
    not part of this repository: the callback is parametrised by them (record
    [Lib]) and every general theorem holds for any implementation.  A
    reference implementation ([RefLib], second half of the file) is used to
    run the callback on concrete messages. *)

From Stdlib Require Import ZArith List String Ascii Bool Lia Permutation.
From Stdlib Require Import Floats.
Import ListNotations.
Local Open Scope string_scope.
Local Open Scope list_scope.
Local Open Scope Z_scope.

Set Implicit Arguments.

(** ** Data model *)

(** [std_msgs::msg::Header]: time stamp and frame id, passed through. *)
Record Header := mkHeader {
  stamp_sec : Z;
  stamp_nanosec : Z;
  frame_id : string
}.

(** [sensor_msgs::msg::Image]; [data] is the byte vector ([uint8] values). *)
Record ImageMsg := mkImageMsg {
  header : Header;
  height : Z;
  width : Z;
  encoding : string;
  is_bigendian : bool;
  step : Z;
  data : list Z
}.

(** Element depth of a [cv::Mat]. *)
Inductive depth := CV_8U | CV_8S | CV_16U | CV_16S | CV_32S | CV_32F | CV_64F.

(** The numeric value of one matrix element.  Every value of every OpenCV
    depth is exactly a binary64 number, and the callback itself computes in
    [double] (lines 111-115). *)
Definition sample := float.

(** [cv::Mat]: depth, channel count, size, and the rows of elements (a row of
    a [c]-channel matrix holds [c * cols] samples). *)
Record Mat := mkMat {
  mat_depth : depth;
  channels : Z;
  rows : Z;
  cols : Z;
  elems : list (list sample)
}.

(** The size invariant of a matrix header against its elements. *)
Definition Mat_wf (m : Mat) : Prop :=
  0 <= cols m /\
  rows m = Z.of_nat (List.length (elems m)) /\
  Forall (fun row => Z.of_nat (List.length row) = channels m * cols m) (elems m).

(** [cv_bridge::CvImage]. *)
Record CvImage := mkCvImage {
  cv_header : Header;
  cv_encoding : string;
  image : Mat
}.

(** [cv::Point] and [cv::Rect] (integer coordinates). *)
Record Point := mkPoint { px : Z; py : Z }.
Record Rect := mkRect { rx : Z; ry : Z; rwidth : Z; rheight : Z }.

Definition Point_eq_dec (p q : Point) : {p = q} + {p <> q}.
Proof. decide equality; apply Z.eq_dec. Defined.

(** [sensor_msgs::image_encodings::TYPE_8UC1]. *)
Definition TYPE_8UC1 : string := "8UC1".

(** ** Library interface

    What the callback calls and this repository does not define. *)
Record Lib := mkLib {
  (** [cv_bridge::toCvShare(msg)]; [None] is a thrown [cv_bridge::Exception].
      The returned image shares the message's pixel buffer. *)
  toCvShare : ImageMsg -> option CvImage;
  (** [sensor_msgs::image_encodings::numChannels]; [None] is the
      [std::runtime_error] it throws on an encoding it does not know. *)
  numChannels : string -> option Z;
  (** [cv::minMaxIdx(src, &minVal, &maxVal, 0, 0, mask)]. *)
  minMaxIdx : Mat -> Mat -> float * float;
  (** [src.convertTo(dst, CV_8U, alpha, beta)], the new content of [dst]. *)
  convertTo : Mat -> float -> float -> Mat;
  (** [cv::findContours(image, contours, CV_RETR_EXTERNAL, CV_CHAIN_APPROX_NONE)];
      [image] is an [InputArray]: it is read, not written. *)
  findContours : Mat -> list (list Point);
  (** [cv_bridge::CvImage::toImageMsg]. *)
  toImageMsg : CvImage -> ImageMsg
}.

(** ** Routines with a closed form *)

(** Modelled from the spec: the comparison operator of [cv::Mat] is
    OpenCV's.  The matrix expression [image != 0.] of line 112 is an 8-bit
    mask, 255 where the element differs from zero, so that "pixels equal to
    zero are excluded from the range computation". *)
Definition ne_zero (m : Mat) : Mat :=
  mkMat CV_8U (channels m) (rows m) (cols m)
    (map (map (fun v : sample => if PrimFloat.eqb v 0%float then 0%float else 255%float))
       (elems m)).

(** Modelled from the spec: [std::max_element] is the C++ standard
    library's.  [std::max_element(first, last, comp)], as an index from
    [first]: "first element starts as current best; any later element with a
    strictly greater count replaces it", that is, when [comp] of the current
    best and that element holds.  On an empty range the result is [last],
    at distance [0] from [first]. *)
Section MaxElement.
Context {A : Type} (comp : A -> A -> bool).

Fixpoint max_element_from (largest : nat) (lv : A) (i : nat) (l : list A) : nat :=
  match l with
  | [] => largest
  | x :: l' =>
      if comp lv x then max_element_from i x (S i) l'
      else max_element_from largest lv (S i) l'
  end.

Definition max_element (l : list A) : nat :=
  match l with
  | [] => 0%nat
  | x :: l' => max_element_from 0 x 1 l'
  end.
End MaxElement.

(** The comparator of lines 123-126: [a.size() < b.size()]. *)
Definition size_lt (a b : list Point) : bool := (List.length a <? List.length b)%nat.

(** Modelled from the spec: [cv::boundingRect] is OpenCV's.  "The minimal
    axis-aligned rectangle (in integer pixel coordinates) enclosing the
    selected contour's points"; the empty rectangle for no point. *)
Definition boundingRect (pts : list Point) : Rect :=
  match pts with
  | [] => mkRect 0 0 0 0
  | p :: ps =>
      let xmin := fold_left Z.min (map px ps) (px p) in
      let xmax := fold_left Z.max (map px ps) (px p) in
      let ymin := fold_left Z.min (map py ps) (py p) in
      let ymax := fold_left Z.max (map py ps) (py p) in
      mkRect xmin ymin (xmax - xmin + 1) (ymax - ymin + 1)
  end.

(** The [len] elements of [l] from index [from] on. *)
Definition slice {A} (from len : Z) (l : list A) : list A :=
  firstn (Z.to_nat len) (skipn (Z.to_nat from) l).

(** Modelled from the spec: [cv::Mat::operator()(const Rect&)] is
    OpenCV's.  "A sub-region view of the original pixel buffer restricted to
    the bounding rectangle"; [None] is OpenCV's failed [CV_Assert] on a
    rectangle that leaves the matrix. *)
Definition Mat_roi (m : Mat) (r : Rect) : option Mat :=
  if (0 <=? rx r) && (0 <=? rwidth r) && (rx r + rwidth r <=? cols m)
     && (0 <=? ry r) && (0 <=? rheight r) && (ry r + rheight r <=? rows m)
  then Some (mkMat (mat_depth m) (channels m) (rheight r) (rwidth r)
               (map (slice (rx r * channels m) (rwidth r * channels m))
                  (slice (ry r) (rheight r) (elems m))))
  else None.

(** Modelled from the spec: the constructor is OpenCV's.
    [cv::Mat1b m(rows, cols)] (line 106 passes [width], [height] in this
    order) is a fresh 8-bit single-channel buffer.  Its elements are not
    initialised; they are never read before being replaced. *)
Definition Mat1b_new (nrows ncols : Z) : Mat :=
  mkMat CV_8U 1 nrows ncols
    (repeat (repeat 0%float (Z.to_nat ncols)) (Z.to_nat nrows)).

(** Lines 113-115: the scale and offset handed to [convertTo], from the
    masked minimum and maximum. *)
Definition scale_of (minVal maxVal : float) : float * float :=
  let ra := (maxVal - minVal)%float in
  ((255 / ra)%float, (- minVal * 255 / ra)%float).

(** A contour point is a pixel position of a [w] by [h] image. *)
Definition in_bounds (w h : Z) (p : Point) : bool :=
  (0 <=? px p) && (px p <? w) && (0 <=? py p) && (py p <? h).

(** The positions of the non-zero elements of a single-channel matrix, and
    the rectangle that bounds them (the "non-zero bounding box"). *)
Definition nonzero_points (m : Mat) : list Point :=
  List.concat
    (map (fun yr : nat * list sample =>
            List.concat
              (map (fun xv : nat * sample =>
                      if PrimFloat.eqb (snd xv) 0%float then []
                      else [mkPoint (Z.of_nat (fst xv)) (Z.of_nat (fst yr))])
                 (combine (seq 0 (List.length (snd yr))) (snd yr))))
       (combine (seq 0 (List.length (elems m))) (elems m))).


(** ** Buffers, events and outcomes *)

(** The two pixel buffers of one call: the buffer of the incoming message,
    which [cv_ptr->image] shares, and the buffer owned by the local [m]. *)
Inductive buffer := InputBuf | LocalBuf.

Record heap := mkHeap { input_buf : Mat; local_buf : Mat }.

Definition load (h : heap) (b : buffer) : Mat :=
  match b with InputBuf => input_buf h | LocalBuf => local_buf h end.

Definition store (h : heap) (b : buffer) (v : Mat) : heap :=
  match b with
  | InputBuf => mkHeap v (local_buf h)
  | LocalBuf => mkHeap (input_buf h) v
  end.

(** What a call does to the outside: an error line, a published message. *)
Inductive event :=
| LogError (fmt arg : string)
| Publish (msg : ImageMsg).

(** How control leaves the callback abnormally. *)
Inductive fault :=
| UncaughtRuntimeError   (* numChannels threw; only cv_bridge::Exception is caught *)
| VectorIndexOutOfRange  (* cnt[i] with i >= cnt.size(): undefined behaviour *)
| CvAssertFailed.        (* the CV_Assert of Mat::operator()(Rect) *)

Inductive outcome := Returned | Faulted (f : fault).

(** One run of the callback: how it ended, what it emitted, and the content
    of the message's pixel buffer at the end ([None] when no image view of
    it was ever made). *)
Record run := mkRun {
  r_out : outcome;
  r_events : list event;
  r_input : option Mat
}.

Definition is_publish (e : event) : bool :=
  match e with Publish _ => true | LogError _ _ => false end.

(** ** The callback *)

Section Callback.
Variable L : Lib.

(** Lines 105-116: the local [m] and the mask it ends up referring to.
    Returns the heap and the buffer [m] points to. *)
Definition make_mask (raw_msg : ImageMsg) (cv_ptr : CvImage) : heap * buffer :=
  let h := mkHeap (image cv_ptr) (Mat1b_new (width raw_msg) (height raw_msg)) in
  let m := LocalBuf in
  if String.eqb (encoding raw_msg) TYPE_8UC1 then
    (* m = cv_ptr->image: the header of m now refers to the input buffer *)
    (h, InputBuf)
  else
    let '(minVal, maxVal) := minMaxIdx L (load h InputBuf) (ne_zero (load h InputBuf)) in
    let '(alpha, beta) := scale_of minVal maxVal in
    (* convertTo writes through m, which still refers to its own buffer *)
    (store h m (convertTo L (load h InputBuf) alpha beta), m).

(** Lines 118-138 on the contour list [cnt]. *)
Definition crop_and_publish (raw_msg : ImageMsg) (h : heap)
    (cnt : list (list Point)) : run :=
  let it := max_element size_lt cnt in
  match nth_error cnt it with
  | None => mkRun (Faulted VectorIndexOutOfRange) [] (Some (input_buf h))
  | Some c =>
      let r := boundingRect c in
      match Mat_roi (load h InputBuf) r with
      | None => mkRun (Faulted CvAssertFailed) [] (Some (input_buf h))
      | Some sub =>
          let out_msg := mkCvImage (header raw_msg) (encoding raw_msg) sub in
          mkRun Returned [Publish (toImageMsg L out_msg)] (Some (input_buf h))
      end
  end.

Definition imageCb (raw_msg : ImageMsg) : run :=
  match toCvShare L raw_msg with
  | None =>
      mkRun Returned [LogError "cv_bridge exception: %s" "e.what()"] None
  | Some cv_ptr =>
      match numChannels L (encoding raw_msg) with
      | None => mkRun (Faulted UncaughtRuntimeError) [] (Some (image cv_ptr))
      | Some n =>
          if negb (n =? 1) then
            mkRun Returned
              [LogError "Only grayscale image is acceptable, got [%s]" (encoding raw_msg)]
              (Some (image cv_ptr))
          else
            let '(h, m) := make_mask raw_msg cv_ptr in
            let cnt := findContours L (load h m) in
            crop_and_publish raw_msg h cnt
      end
  end.

(** The matrix handed to [cv::findContours] at line 118, when the call
    gets that far. *)
Definition contour_input (raw_msg : ImageMsg) : option Mat :=
  match toCvShare L raw_msg with
  | None => None
  | Some cv_ptr =>
      match numChannels L (encoding raw_msg) with
      | Some 1 => let '(h, m) := make_mask raw_msg cv_ptr in Some (load h m)
      | _ => None
      end
  end.
End Callback.

(** ** Reference implementation of the library interface

    Modelled from the spec: cv_bridge, sensor_msgs and OpenCV are not under
    src/.  The routines below follow the spec (section 4.1: masked minimum
    and maximum, the affine map to 8 bits with saturation, external
    contours with every border point kept) and, where the spec is silent,
    the libraries' documentation.  They serve to run the callback on
    concrete messages; no general theorem depends on them.  Host
    conventions: little-endian, x86-64 float-to-integer conversion,
    arithmetic in binary64. *)
Module Ref.

Local Open Scope float_scope.
Local Open Scope Z_scope.

(** *** Numbers *)

(** An integer as a [double] (exact below 2^53 in magnitude). *)
Definition Z2f (z : Z) : float :=
  if z <? 0 then (- of_uint63 (Uint63.of_Z (- z)))%float
  else of_uint63 (Uint63.of_Z z).

(** [m * 2^e] rounded to the nearest integer, ties to even. *)
Definition round_half_even (m : positive) (e : Z) : Z :=
  if 0 <=? e then Zpos m * 2 ^ e
  else
    let d := 2 ^ (- e) in
    let q := Zpos m / d in
    let r := Zpos m mod d in
    if 2 * r <? d then q
    else if d <? 2 * r then q + 1
    else if Z.even q then q else q + 1.

Definition INT_MIN : Z := - 2 ^ 31.

(** [cvRound(double)]: round to nearest even; what is not a number or does
    not fit an [int] gives the "integer indefinite" value. *)
Definition cvRound (f : float) : Z :=
  match Prim2SF f with
  | S754_zero _ => 0
  | S754_finite s m e =>
      let a := round_half_even m e in
      let v := if s then - a else a in
      if (INT_MIN <=? v) && (v <? 2 ^ 31) then v else INT_MIN
  | _ => INT_MIN
  end.

(** [cv::saturate_cast<uchar>(int)]. *)
Definition saturate_u8 (v : Z) : Z := Z.max 0 (Z.min 255 v).

(** The bit pattern [u] read as an IEEE-754 number with [ebits] exponent
    bits and [mbits] fraction bits. *)
Definition decode_ieee (ebits mbits u : Z) : float :=
  let s := Z.odd (u / 2 ^ (ebits + mbits)) in
  let E := (u / 2 ^ mbits) mod 2 ^ ebits in
  let M := u mod 2 ^ mbits in
  let bias := 2 ^ (ebits - 1) - 1 in
  if E =? 2 ^ ebits - 1 then
    if M =? 0 then SF2Prim (S754_infinity s) else nan
  else if E =? 0 then
    if M =? 0 then SF2Prim (S754_zero s)
    else SF2Prim (S754_finite s (Z.to_pos M) (1 - bias - mbits))
  else SF2Prim (S754_finite s (Z.to_pos (M + 2 ^ mbits)) (E - bias - mbits)).

(** The bit pattern of a number that the format represents. *)
Definition encode_ieee (ebits mbits : Z) (f : float) : Z :=
  let bias := 2 ^ (ebits - 1) - 1 in
  let sign (s : bool) := if s then 2 ^ (ebits + mbits) else 0 in
  match Prim2SF f with
  | S754_nan => (2 ^ ebits - 1) * 2 ^ mbits + 2 ^ (mbits - 1)
  | S754_infinity s => sign s + (2 ^ ebits - 1) * 2 ^ mbits
  | S754_zero s => sign s
  | S754_finite s m e =>
      let d := Z.log2 (Zpos m) + 1 in
      let X := e + d - 1 in
      if 1 <=? X + bias then
        sign s + (X + bias) * 2 ^ mbits
        + (Z.shiftl (Zpos m) (mbits - (d - 1)) - 2 ^ mbits)
      else sign s + Z.shiftl (Zpos m) (e - (1 - bias - mbits))
  end.

(** Size in bytes of one element of a depth. *)
Definition elemSize1 (d : depth) : Z :=
  match d with
  | CV_8U | CV_8S => 1
  | CV_16U | CV_16S => 2
  | CV_32S | CV_32F => 4
  | CV_64F => 8
  end.

(** Little-endian bytes and back. *)
Definition of_le (bs : list Z) : Z := fold_right (fun b acc => b + 256 * acc) 0 bs.

Fixpoint to_le (n : nat) (u : Z) : list Z :=
  match n with
  | O => []
  | S n' => u mod 256 :: to_le n' (u / 256)
  end.

Definition signed (bits u : Z) : Z := if u <? 2 ^ (bits - 1) then u else u - 2 ^ bits.

Definition decode_sample (d : depth) (bs : list Z) : sample :=
  let u := of_le bs in
  match d with
  | CV_8U | CV_16U => Z2f u
  | CV_8S => Z2f (signed 8 u)
  | CV_16S => Z2f (signed 16 u)
  | CV_32S => Z2f (signed 32 u)
  | CV_32F => decode_ieee 8 23 u
  | CV_64F => decode_ieee 11 52 u
  end.

Definition encode_sample (d : depth) (v : sample) : list Z :=
  let n := Z.to_nat (elemSize1 d) in
  match d with
  | CV_32F => to_le n (encode_ieee 8 23 v)
  | CV_64F => to_le n (encode_ieee 11 52 v)
  | _ => to_le n (cvRound v mod 2 ^ (8 * elemSize1 d))
  end.

(** *** sensor_msgs::image_encodings and cv_bridge *)

Definition is_digit (c : ascii) : bool :=
  let n := Z.of_nat (nat_of_ascii c) in (48 <=? n) && (n <=? 57).

Fixpoint atoi_from (acc : Z) (s : string) : option Z :=
  match s with
  | EmptyString => Some acc
  | String c s' =>
      if is_digit c then atoi_from (10 * acc + (Z.of_nat (nat_of_ascii c) - 48)) s'
      else None
  end.

(** [n] for a non-empty digit string, as the regular expression
    [[0-9]+] followed by [atoi] reads it. *)
Definition digits (s : string) : option Z :=
  match s with EmptyString => None | _ => atoi_from 0 s end.

Definition generic_depths : list (string * depth) :=
  [("8UC", CV_8U); ("8SC", CV_8S); ("16UC", CV_16U); ("16SC", CV_16S);
   ("32SC", CV_32S); ("32FC", CV_32F); ("64FC", CV_64F)]%string.

(** The generic encodings [(8U|8S|16U|16S|32S|32F|64F)C([0-9]+)]. *)
Fixpoint generic_type (ps : list (string * depth)) (enc : string) : option (depth * Z) :=
  match ps with
  | [] => None
  | (p, d) :: ps' =>
      if String.prefix p enc then
        match digits (String.substring (String.length p)
                        (String.length enc - String.length p) enc) with
        | Some n => Some (d, n)
        | None => generic_type ps' enc
        end
      else generic_type ps' enc
  end.

Definition named_types : list (string * (depth * Z)) :=
  [("mono8", (CV_8U, 1)); ("mono16", (CV_16U, 1));
   ("bgr8", (CV_8U, 3)); ("rgb8", (CV_8U, 3));
   ("bgr16", (CV_16U, 3)); ("rgb16", (CV_16U, 3));
   ("bgra8", (CV_8U, 4)); ("rgba8", (CV_8U, 4));
   ("bgra16", (CV_16U, 4)); ("rgba16", (CV_16U, 4));
   ("bayer_rggb8", (CV_8U, 1)); ("bayer_bggr8", (CV_8U, 1));
   ("bayer_gbrg8", (CV_8U, 1)); ("bayer_grbg8", (CV_8U, 1));
   ("bayer_rggb16", (CV_16U, 1)); ("bayer_bggr16", (CV_16U, 1));
   ("bayer_gbrg16", (CV_16U, 1)); ("bayer_grbg16", (CV_16U, 1));
   ("yuv422", (CV_8U, 2)); ("yuv422_yuy2", (CV_8U, 2))]%string.

Fixpoint assoc {B} (k : string) (l : list (string * B)) : option B :=
  match l with
  | [] => None
  | (k', v) :: l' => if String.eqb k k' then Some v else assoc k l'
  end.

(** [cv_bridge::getCvType] on the encodings sensor_msgs knows. *)
Definition getCvType (enc : string) : option (depth * Z) :=
  match assoc enc named_types with
  | Some t => Some t
  | None => generic_type generic_depths enc
  end.

Definition numChannels (enc : string) : option Z :=
  option_map snd (getCvType enc).

Fixpoint chunks {A} (fuel n : nat) (l : list A) : list (list A) :=
  match fuel with
  | O => []
  | S fuel' =>
      match l with
      | [] => []
      | _ => firstn n l :: chunks fuel' n (skipn n l)
      end
  end.

(** [cv_bridge::matFromImage]: the rows of the byte vector, [step] bytes
    apart, read in the element type of the encoding. *)
Definition matFromImage (source : ImageMsg) : option Mat :=
  match getCvType (encoding source) with
  | None => None
  | Some (d, ch) =>
      let bd := elemSize1 d in
      if step source <? width source * bd * ch then None
      else if negb (height source * step source =? Z.of_nat (List.length (data source)))
      then None
      else
        let row y :=
          let bytes := slice (Z.of_nat y * step source) (width source * bd * ch)
                         (data source) in
          map (fun c => decode_sample d (if is_bigendian source then rev c else c))
            (chunks (List.length bytes) (Z.to_nat bd) bytes) in
        Some (mkMat d ch (height source) (width source)
                (map row (seq 0 (Z.to_nat (height source)))))
  end.

Definition toCvShare (source : ImageMsg) : option CvImage :=
  option_map (mkCvImage (header source) (encoding source)) (matFromImage source).

(** [cv_bridge::CvImage::toImageMsg]. *)
Definition toImageMsg (c : CvImage) : ImageMsg :=
  let m := image c in
  mkImageMsg (cv_header c) (rows m) (cols m) (cv_encoding c) false
    (cols m * (elemSize1 (mat_depth m) * channels m))
    (List.concat (map (fun row => List.concat (map (encode_sample (mat_depth m)) row)) (elems m))).

(** *** OpenCV core *)

(** [cv::minMaxIdx] with a mask: minimum and maximum over the elements
    whose mask entry is not zero; both are 0 when no element is selected. *)
Definition minMaxIdx (src mask : Mat) : float * float :=
  let sel := filter (fun vm => negb (PrimFloat.eqb (snd vm) 0%float))
               (combine (List.concat (elems src)) (List.concat (elems mask))) in
  match map fst sel with
  | [] => (0%float, 0%float)
  | v :: vs =>
      (fold_left (fun a x => if PrimFloat.ltb x a then x else a) vs v,
       fold_left (fun a x => if PrimFloat.ltb a x then x else a) vs v)
  end.

(** [src.convertTo(dst, CV_8U, alpha, beta)]:
    [dst(x,y) = saturate_cast<uchar>(src(x,y) * alpha + beta)]. *)
Definition convertTo (src : Mat) (alpha beta : float) : Mat :=
  mkMat CV_8U (channels src) (rows src) (cols src)
    (map (map (fun v : sample => Z2f (saturate_u8 (cvRound (v * alpha + beta)%float))))
       (elems src)).

(** *** cv::findContours, external borders, every border point kept

    Border following after Suzuki and Abe on the binarised image with a
    one-pixel zero frame.  Traced pixels are marked [2], or [-126] where
    the border leaves the region to the right. *)

Definition grid := list (list Z).

Definition pixel (g : grid) (x y : Z) : Z :=
  nth (Z.to_nat x) (nth (Z.to_nat y) g []) 0.

Fixpoint upd {A} (n : nat) (v : A) (l : list A) : list A :=
  match l, n with
  | [], _ => []
  | _ :: t, O => v :: t
  | a :: t, S k => a :: upd k v t
  end.

Definition mark (g : grid) (x y v : Z) : grid :=
  upd (Z.to_nat y) (upd (Z.to_nat x) v (nth (Z.to_nat y) g [])) g.

(** The eight neighbours, counter-clockwise from east (rows grow downwards). *)
Definition dx (s : Z) : Z := nth (Z.to_nat (s mod 8)) [1; 1; 0; -1; -1; -1; 0; 1] 0.
Definition dy (s : Z) : Z := nth (Z.to_nat (s mod 8)) [0; -1; -1; -1; 0; 1; 1; 1] 0.

Definition binarise (m : Mat) : grid :=
  let w := Z.to_nat (cols m) in
  let zero_row := repeat 0 (w + 2) in
  zero_row
  :: map (fun row =>
            0 :: map (fun v : sample => if PrimFloat.eqb v 0%float then 0 else 1) row ++ [0])
       (elems m)
  ++ [zero_row].

(** Clockwise search from west for the first non-zero neighbour of the
    start pixel; [None] for an isolated pixel. *)
Fixpoint first_neighbour (g : grid) (x y : Z) (cands : list Z) : option Z :=
  match cands with
  | [] => None
  | s :: t => if pixel g (x + dx s) (y + dy s) =? 0 then first_neighbour g x y t else Some s
  end.

(** Counter-clockwise search from direction [s + 1], at most [n] steps. *)
Fixpoint next_neighbour (g : grid) (x y s : Z) (n : nat) : Z :=
  match n with
  | O => s
  | S n' =>
      let s' := s + 1 in
      if pixel g (x + dx s') (y + dy s') =? 0 then next_neighbour g x y s' n' else s'
  end.

(** The border-following loop from pixel [(x3, y3)], entered with
    direction [s]; [(x0, y0)] is the start and [(x1, y1)] its first
    neighbour.  Points are collected in reverse. *)
Fixpoint follow (fuel : nat) (g : grid) (x0 y0 x1 y1 x3 y3 s : Z)
    (acc : list Point) : grid * list Point :=
  match fuel with
  | O => (g, acc)
  | S fuel' =>
      let s_end := s in
      let s := next_neighbour g x3 y3 s (Z.to_nat (15 - s)) mod 8 in
      let x4 := x3 + dx s in
      let y4 := y3 + dy s in
      let g :=
        if (1 <=? s) && (s <=? s_end) then mark g x3 y3 (-126)
        else if pixel g x3 y3 =? 1 then mark g x3 y3 2
        else g in
      let acc := mkPoint (x3 - 1) (y3 - 1) :: acc in
      if (x4 =? x0) && (y4 =? y0) && (x3 =? x1) && (y3 =? y1) then (g, acc)
      else follow fuel' g x0 y0 x1 y1 x4 y4 ((s + 4) mod 8) acc
  end.

(** One outer border, from its start pixel. *)
Definition fetchContour (fuel : nat) (g : grid) (x y : Z) : grid * list Point :=
  match first_neighbour g x y [3; 2; 1; 0; 7; 6; 5] with
  | None => (mark g x y (-126), [mkPoint (x - 1) (y - 1)])
  | Some s =>
      let '(g, acc) := follow fuel g x y (x + dx s) (y + dy s) x y s [] in
      (g, rev acc)
  end.

Definition is_marked (p : Z) : bool := negb (Z.land p (-2) =? 0).

Record scanner := mkScanner {
  sc_grid : grid;
  sc_prev : Z;
  sc_lnbd : Z;
  sc_found : list (list Point)
}.

(** The raster scan at pixel [(x, y)]. *)
Definition scan_pixel (fuel : nat) (y : Z) (st : scanner) (x : Z) : scanner :=
  let g := sc_grid st in
  let prev := sc_prev st in
  let p := pixel g x y in
  if p =? prev then st
  else if (prev =? 0) && (p =? 1) then
    if 0 <? pixel g (sc_lnbd st) y then
      mkScanner g p (sc_lnbd st) (sc_found st)
    else
      let '(g', c) := fetchContour fuel g x y in
      mkScanner g' (pixel g' x y) x (c :: sc_found st)
  else if negb (p =? 0) || (prev <? 1) then
    mkScanner g p (if is_marked p then x else sc_lnbd st) (sc_found st)
  else
    mkScanner g p (if is_marked prev then x - 1 else sc_lnbd st) (sc_found st).

Definition scan_row (fuel : nat) (w : Z) (st : scanner) (y : Z) : scanner :=
  let st := fold_left (scan_pixel fuel y)
              (map (fun i => Z.of_nat i + 1) (seq 0 (Z.to_nat w))) st in
  mkScanner (sc_grid st) 0 0 (sc_found st).

(** The contours, the last one found first (the order in which OpenCV
    links them). *)
Definition findContours (m : Mat) : list (list Point) :=
  let g := binarise m in
  let fuel := (8 * Z.to_nat ((cols m + 2) * (rows m + 2)) + 8)%nat in
  sc_found
    (fold_left (scan_row fuel (cols m))
       (map (fun i => Z.of_nat i + 1) (seq 0 (Z.to_nat (rows m))))
       (mkScanner g 0 0 [])).

End Ref.

(** The reference library. *)
Definition RefLib : Lib :=
  mkLib Ref.toCvShare Ref.numChannels Ref.minMaxIdx Ref.convertTo
    Ref.findContours Ref.toImageMsg.

(** ** Messages used to run the callback *)

Definition hdr : Header := mkHeader 1730000000 250000000 "camera_depth_frame".

(** A message of [w] by [h] one-byte elements, rows packed. *)
Definition msg8 (enc : string) (w h : Z) (bytes : list Z) : ImageMsg :=
  mkImageMsg hdr h w enc false w bytes.

(** 8UC1, 2 by 2, every pixel zero. *)
Definition msg_all_zero : ImageMsg := msg8 "8UC1" 2 2 [0; 0; 0; 0].

(** 8UC1, 4 by 4, a 2 by 2 block of non-zero pixels in the middle. *)
Definition msg_block : ImageMsg :=
  msg8 "8UC1" 4 4 [0; 0; 0; 0;  0; 5; 7; 0;  0; 9; 3; 0;  0; 0; 0; 0].

(** 8UC1, 2 by 2, no zero pixel. *)
Definition msg_full : ImageMsg := msg8 "8UC1" 2 2 [5; 7; 9; 3].


(** mono8 (8-bit unsigned, one channel), 2 by 1, pixels 1 and 2. *)
Definition msg_mono8 : ImageMsg := msg8 "mono8" 2 1 [1; 2].

(** rgb8, 1 by 1. *)
Definition msg_rgb : ImageMsg := mkImageMsg hdr 1 1 "rgb8" false 3 [10; 20; 30].

(** rgb8 announcing 1 by 1 with a byte missing: cv_bridge refuses it. *)
Definition msg_truncated : ImageMsg := mkImageMsg hdr 1 1 "rgb8" false 3 [10; 20].

(** 16UC1, 2 by 1, both pixels 5 (little-endian). *)
Definition msg_flat16 : ImageMsg := mkImageMsg hdr 1 2 "16UC1" false 4 [5; 0; 5; 0].

(** 16UC1, 3 by 1, pixels 256, 512, 768; then 2 by 1, pixels 512, 768; then
    1 by 1, pixel 768. *)
Definition msg16 (w : Z) (bytes : list Z) : ImageMsg :=
  mkImageMsg hdr 1 w "16UC1" false (2 * w) bytes.
Definition msg_ramp2 : ImageMsg := msg16 2 [0; 2; 0; 3].

(** Contour lists for the selection rule. *)
Definition pt0 : Point := mkPoint 0 0.
Definition cnt_sample : list (list Point) :=
  [[pt0]; [pt0; mkPoint 1 0; mkPoint 2 0]; [mkPoint 5 5; mkPoint 5 6; mkPoint 6 6]; [pt0; pt0]].

(** What cv_bridge makes of these messages. *)
Definition cv8 (enc : string) (w h : Z) (es : list (list sample)) : CvImage :=
  mkCvImage hdr enc (mkMat CV_8U 1 h w es).

Definition cv_all_zero : CvImage := cv8 "8UC1" 2 2 [[0; 0]; [0; 0]]%float.
Definition cv_block : CvImage :=
  cv8 "8UC1" 4 4 [[0; 0; 0; 0]; [0; 5; 7; 0]; [0; 9; 3; 0]; [0; 0; 0; 0]]%float.
Definition cv_full : CvImage := cv8 "8UC1" 2 2 [[5; 7]; [9; 3]]%float.
Definition cv_mono8 : CvImage := cv8 "mono8" 2 1 [[1; 2]]%float.
Definition cv_rgb : CvImage :=
  mkCvImage hdr "rgb8" (mkMat CV_8U 3 1 1 [[10; 20; 30]]%float).
Definition cv_flat16 : CvImage :=
  mkCvImage hdr "16UC1" (mkMat CV_16U 1 1 2 [[5; 5]]%float).

(** The border of the block of [msg_block] and of the whole of [msg_full]. *)
Definition cnt_block : list (list Point) :=
  [[mkPoint 1 1; mkPoint 1 2; mkPoint 2 2; mkPoint 2 1]].

(** Tells apart two matrices by their first element. *)
Definition first_is_zero (m : Mat) : bool :=
  match elems m with
  | (v :: _) :: _ => PrimFloat.eqb v 0%float
  | _ => false
  end.

(** ** The node: constructor and lazy subscription (lines 53-86) *)

(** [rmw_qos_profile_t], the policies a subscription is created with. *)
Inductive reliability := RELIABLE | BEST_EFFORT.
Inductive durability := VOLATILE | TRANSIENT_LOCAL.
Record QoS := mkQoS {
  qos_depth : Z;
  qos_reliability : reliability;
  qos_durability : durability
}.

(** [rmw_qos_profile_default]: keep last 10, reliable, volatile. *)
Definition rmw_qos_profile_default : QoS := mkQoS 10 RELIABLE VOLATILE.

(** [rclcpp::NodeOptions] as far as the constructor reads it: the parameter
    overrides, and the name resolution of the node base interface
    (namespace and remapping rules). *)
Record NodeOptions := mkNodeOptions {
  parameter_overrides : list (string * string);
  resolve_topic_or_service_name : string -> string
}.

Fixpoint get_parameter (name : string) (ps : list (string * string)) : option string :=
  match ps with
  | [] => None
  | (k, v) :: ps' => if String.eqb name k then Some v else get_parameter name ps'
  end.

(** [declare_parameter<std::string>(name, default)]: the override when the
    options carry one, the default otherwise. *)
Definition declare_parameter (options : NodeOptions) (name default : string)
    (ps : list (string * string)) : list (string * string) :=
  (name,
   match get_parameter name (parameter_overrides options) with
   | Some v => v
   | None => default
   end) :: ps.

(** [image_transport::Subscriber] and [image_transport::Publisher]. *)
Record Subscriber := mkSubscriber {
  sub_topic : string;
  sub_transport : string;
  sub_qos : QoS
}.

Record Publisher := mkPublisher {
  pub_topic : string;
  pub_qos : QoS;
  pub_qos_overridable : bool
}.

(** The members of [CropNonZeroNode]; [sub_raw_] is [None] while the
    subscriber is invalid (default-constructed or shut down). *)
Record CropNonZeroNode := mkNode {
  parameters : list (string * string);
  image_topic_ : string;
  pub_ : Publisher;
  sub_raw_ : option Subscriber
}.

(** [image_transport::TransportHints(this).getTransport()]: the parameter
    "image_transport", "raw" when it is not set. *)
Definition getTransport (node : CropNonZeroNode) : string :=
  match get_parameter "image_transport" (parameters node) with
  | Some t => t
  | None => "raw"
  end.

(** Lines 53-86, the constructor. *)
Definition CropNonZeroNode_new (options : NodeOptions) : CropNonZeroNode :=
  let ps := declare_parameter options "image_transport" "raw" [] in
  let image_topic := resolve_topic_or_service_name options "image_raw" in
  let pub_topic := resolve_topic_or_service_name options "image" in
  mkNode ps image_topic (mkPublisher pub_topic rmw_qos_profile_default true) None.

(** Lines 67-81, the publisher's matched callback.  [num_subscribers] is
    what [pub_.getNumSubscribers()] returns at that moment and
    [qos_profile] what [getTopicQosProfile(this, image_topic_)] would. *)
Definition matched_callback (node : CropNonZeroNode) (num_subscribers : nat)
    (qos_profile : QoS) : CropNonZeroNode :=
  if (num_subscribers =? 0)%nat then
    (* sub_raw_.shutdown() *)
    mkNode (parameters node) (image_topic_ node) (pub_ node) None
  else
    match sub_raw_ node with
    | Some _ => node
    | None =>
        mkNode (parameters node) (image_topic_ node) (pub_ node)
          (Some (mkSubscriber (image_topic_ node) (getTransport node) qos_profile))
    end.

(** What happens to a node: the publisher's match count changes, or an
    image arrives on the subscribed topic. *)
Inductive node_event :=
| Matched (num_subscribers : nat) (qos_profile : QoS)
| Incoming (raw_msg : ImageMsg).

(** A node in its process: the members, whether the process is still
    running (a fault of the callback ends it), and the runs of the image
    callback so far. *)
Record process := mkProcess {
  p_node : CropNonZeroNode;
  p_alive : bool;
  p_runs : list run
}.

Definition is_returned (o : outcome) : bool :=
  match o with Returned => true | Faulted _ => false end.

(** One event.  image_transport hands an image to the bound callback
    (line 78) only while the subscriber exists. *)
Definition node_step (L : Lib) (p : process) (ev : node_event) : process :=
  if negb (p_alive p) then p
  else
    match ev with
    | Matched n q => mkProcess (matched_callback (p_node p) n q) true (p_runs p)
    | Incoming raw_msg =>
        match sub_raw_ (p_node p) with
        | None => p
        | Some _ =>
            let r := imageCb L raw_msg in
            mkProcess (p_node p) (is_returned (r_out r)) (p_runs p ++ [r])
        end
    end.

Definition run_node (L : Lib) (options : NodeOptions) (evs : list node_event) : process :=
  fold_left (node_step L) evs (mkProcess (CropNonZeroNode_new options) true []).

(** The match count last reported in a sequence of events, 0 before any. *)
Definition last_matched (evs : list node_event) : nat :=
  fold_left (fun acc ev => match ev with Matched n _ => n | Incoming _ => acc end) evs 0%nat.

(** The node after a sequence of matched callbacks. *)
Definition after_matches (node : CropNonZeroNode) (ms : list (nat * QoS)) : CropNonZeroNode :=
  fold_left (fun nd m => matched_callback nd (fst m) (snd m)) ms node.

(** ** Helpers for the statements on pixels and numbers *)

(** The sample of row [y], position [x] of a matrix. *)
Definition Mat_at (m : Mat) (y x : Z) : option sample :=
  match nth_error (elems m) (Z.to_nat y) with
  | Some row => nth_error row (Z.to_nat x)
  | None => None
  end.

(** A [double] that is a number: neither an infinity nor a NaN. *)
Definition is_finite (x : float) : bool :=
  match Prim2SF x with
  | S754_zero _ | S754_finite _ _ _ => true
  | _ => false
  end.

(** Node options and policies used to run the node. *)
Definition options_default : NodeOptions :=
  mkNodeOptions [] (fun name => String.append "/camera/" name).
Definition options_compressed : NodeOptions :=
  mkNodeOptions [("image_transport", "compressed")] (fun name => String.append "/" name).
Definition qos_sensor : QoS := mkQoS 5 BEST_EFFORT VOLATILE.
Definition qos_latched : QoS := mkQoS 1 RELIABLE TRANSIENT_LOCAL.

(** ** Helpers for the statements on the normalised mask and on regions *)




(** A point lies in a rectangle. *)
Definition point_in_rect (r : Rect) (p : Point) : bool :=
  (rx r <=? px p) && (px p <? rx r + rwidth r) &&
  (ry r <=? py p) && (py p <? ry r + rheight r).

Definition Point_eqb (p q : Point) : bool := (px p =? px q) && (py p =? py q).


(** Modelled from the spec: [cv::findContours] is OpenCV's.  "Only
    outermost boundaries of connected non-zero regions": each non-zero element
    lies within the bounding rectangle of one of the contours returned (that
    of the outer border of its connected region). *)
Definition contours_cover (cnt : list (list Point)) (m : Mat) : bool :=
  forallb (fun p => existsb (fun c => point_in_rect (boundingRect c) p) cnt)
    (nonzero_points m).

(** All rows of [n] elements over 0 and 1, and all 8-bit single-channel
    matrices of [h] such rows. *)
Fixpoint binary_rows (n : nat) : list (list sample) :=
  match n with
  | O => [[]]
  | S n' => flat_map (fun r => [0%float :: r; 1%float :: r]) (binary_rows n')
  end.

Fixpoint binary_elems (w h : nat) : list (list (list sample)) :=
  match h with
  | O => [[]]
  | S h' => flat_map (fun es => map (fun r => r :: es) (binary_rows w)) (binary_elems w h')
  end.

Definition binary_images (w h : nat) : list Mat :=
  map (mkMat CV_8U 1 (Z.of_nat h) (Z.of_nat w)) (binary_elems w h).

(** ** Facts about the closed-form routines *)

Section MaxElementFacts.

(** Loop invariant of [std::max_element] under the comparator of lines
    123-126: [pre] is the part of the range already visited, [lv] its first
    largest element, at index [largest]. *)
Lemma max_element_from_spec (l pre : list (list Point)) (largest : nat) (lv : list Point) :
  nth_error pre largest = Some lv ->
  (forall c', In c' pre -> (List.length c' <= List.length lv)%nat) ->
  (forall j c', (j < largest)%nat -> nth_error pre j = Some c' ->
                (List.length c' < List.length lv)%nat) ->
  exists c,
    nth_error (pre ++ l) (max_element_from size_lt largest lv (List.length pre) l) = Some c /\
    (forall c', In c' (pre ++ l) -> (List.length c' <= List.length c)%nat) /\
    (forall j c', (j < max_element_from size_lt largest lv (List.length pre) l)%nat ->
                  nth_error (pre ++ l) j = Some c' ->
                  (List.length c' < List.length c)%nat).
Proof.
  revert pre largest lv.
  induction l as [|x l IH]; intros pre largest lv Hnth Hmax Hfirst; cbn [max_element_from].
  - rewrite app_nil_r. exists lv. auto.
  - assert (Hlt : (largest < List.length pre)%nat)
      by (apply nth_error_Some; congruence).
    replace (pre ++ x :: l) with ((pre ++ [x]) ++ l) by (rewrite <- app_assoc; reflexivity).
    replace (S (List.length pre)) with (List.length (pre ++ [x]))
      by (rewrite length_app; cbn; lia).
    destruct (size_lt lv x) eqn:Hc; unfold size_lt in Hc;
      [apply Nat.ltb_lt in Hc | apply Nat.ltb_ge in Hc].
    + apply IH.
      * rewrite nth_error_app2, Nat.sub_diag by lia. reflexivity.
      * intros c' Hin. apply in_app_or in Hin as [Hin|[<-|[]]]; [|lia].
        specialize (Hmax _ Hin). lia.
      * intros j c' Hj Hc'. rewrite nth_error_app1 in Hc' by lia.
        apply nth_error_In in Hc'. specialize (Hmax _ Hc'). lia.
    + apply IH.
      * rewrite nth_error_app1 by lia. exact Hnth.
      * intros c' Hin. apply in_app_or in Hin as [Hin|[<-|[]]]; [auto|lia].
      * intros j c' Hj Hc'. rewrite nth_error_app1 in Hc' by lia. eauto.
Qed.

Lemma max_element_spec (cnt : list (list Point)) :
  cnt <> [] ->
  exists c,
    nth_error cnt (max_element size_lt cnt) = Some c /\
    (forall c', In c' cnt -> (List.length c' <= List.length c)%nat) /\
    (forall j c', (j < max_element size_lt cnt)%nat -> nth_error cnt j = Some c' ->
                  (List.length c' < List.length c)%nat).
Proof.
  destruct cnt as [|x l]; [congruence|intros _].
  apply max_element_from_spec with (pre := [x]) (largest := 0%nat) (lv := x).
  - reflexivity.
  - intros c' [<-|[]]. lia.
  - intros j c' Hj. lia.
Qed.

End MaxElementFacts.

Section BoundingRectFacts.

Lemma fold_min_range (l : list Z) (a lo hi : Z) :
  lo <= a <= hi -> Forall (fun x => lo <= x <= hi) l ->
  lo <= fold_left Z.min l a <= hi.
Proof.
  revert a; induction l as [|x l IH]; intros a Ha Hl; cbn; [exact Ha|].
  inversion Hl; subst. apply IH; [lia|assumption].
Qed.

Lemma fold_max_range (l : list Z) (a lo hi : Z) :
  lo <= a <= hi -> Forall (fun x => lo <= x <= hi) l ->
  lo <= fold_left Z.max l a <= hi.
Proof.
  revert a; induction l as [|x l IH]; intros a Ha Hl; cbn; [exact Ha|].
  inversion Hl; subst. apply IH; [lia|assumption].
Qed.

Lemma fold_min_le (l : list Z) (a : Z) :
  fold_left Z.min l a <= a /\ Forall (fun x => fold_left Z.min l a <= x) l.
Proof.
  revert a; induction l as [|x l IH]; intros a; cbn; [split; [lia|constructor]|].
  destruct (IH (Z.min a x)) as [H1 H2]. split; [lia|].
  constructor; [lia|assumption].
Qed.

Lemma fold_max_ge (l : list Z) (a : Z) :
  a <= fold_left Z.max l a /\ Forall (fun x => x <= fold_left Z.max l a) l.
Proof.
  revert a; induction l as [|x l IH]; intros a; cbn; [split; [lia|constructor]|].
  destruct (IH (Z.max a x)) as [H1 H2]. split; [lia|].
  constructor; [lia|assumption].
Qed.

Lemma in_bounds_spec (w h : Z) (p : Point) :
  in_bounds w h p = true <-> (0 <= px p < w /\ 0 <= py p < h).
Proof.
  unfold in_bounds. rewrite !andb_true_iff, !Z.leb_le, !Z.ltb_lt. lia.
Qed.

(** The rectangle of a contour whose points are pixel positions of a
    [w] by [h] image lies in that image. *)
Lemma boundingRect_within (w h : Z) (c : list Point) :
  0 <= w -> 0 <= h -> forallb (in_bounds w h) c = true ->
  0 <= rx (boundingRect c) /\ 0 <= ry (boundingRect c) /\
  0 <= rwidth (boundingRect c) /\ 0 <= rheight (boundingRect c) /\
  rx (boundingRect c) + rwidth (boundingRect c) <= w /\
  ry (boundingRect c) + rheight (boundingRect c) <= h.
Proof.
  intros Hw Hh Hc. destruct c as [|p ps]; cbn [boundingRect rx ry rwidth rheight]; [lia|].
  cbn [forallb] in Hc. apply andb_true_iff in Hc as [Hp Hps].
  apply in_bounds_spec in Hp.
  assert (Hxs : Forall (fun x => 0 <= x <= w - 1) (map px ps)).
  { apply Forall_forall. intros x Hx. apply in_map_iff in Hx as [q [<- Hq]].
    rewrite forallb_forall in Hps. apply Hps, in_bounds_spec in Hq. lia. }
  assert (Hys : Forall (fun y => 0 <= y <= h - 1) (map py ps)).
  { apply Forall_forall. intros y Hy. apply in_map_iff in Hy as [q [<- Hq]].
    rewrite forallb_forall in Hps. apply Hps, in_bounds_spec in Hq. lia. }
  pose proof (@fold_min_range (map px ps) (px p) 0 (w - 1) ltac:(lia) Hxs).
  pose proof (@fold_max_range (map px ps) (px p) 0 (w - 1) ltac:(lia) Hxs).
  pose proof (@fold_min_range (map py ps) (py p) 0 (h - 1) ltac:(lia) Hys).
  pose proof (@fold_max_range (map py ps) (py p) 0 (h - 1) ltac:(lia) Hys).
  pose proof (proj1 (fold_min_le (map px ps) (px p))).
  pose proof (proj1 (fold_max_ge (map px ps) (px p))).
  pose proof (proj1 (fold_min_le (map py ps) (py p))).
  pose proof (proj1 (fold_max_ge (map py ps) (py p))).
  lia.
Qed.

(** Every point of a contour lies in its bounding rectangle. *)
Lemma boundingRect_encloses (c : list Point) (p : Point) :
  In p c ->
  rx (boundingRect c) <= px p < rx (boundingRect c) + rwidth (boundingRect c) /\
  ry (boundingRect c) <= py p < ry (boundingRect c) + rheight (boundingRect c).
Proof.
  destruct c as [|q qs]; [intros []|]. intros Hin.
  cbn [boundingRect rx ry rwidth rheight].
  destruct (fold_min_le (map px qs) (px q)) as [Hxa Hxb].
  destruct (fold_max_ge (map px qs) (px q)) as [Hxc Hxd].
  destruct (fold_min_le (map py qs) (py q)) as [Hya Hyb].
  destruct (fold_max_ge (map py qs) (py q)) as [Hyc Hyd].
  destruct Hin as [<-|Hin]; [lia|].
  rewrite Forall_forall in Hxb, Hxd, Hyb, Hyd.
  pose proof (Hxb _ (in_map px _ _ Hin)). pose proof (Hxd _ (in_map px _ _ Hin)).
  pose proof (Hyb _ (in_map py _ _ Hin)). pose proof (Hyd _ (in_map py _ _ Hin)).
  lia.
Qed.

End BoundingRectFacts.

Section RoiFacts.

Lemma Mat_roi_defined (m : Mat) (r : Rect) :
  0 <= rx r -> 0 <= rwidth r -> rx r + rwidth r <= cols m ->
  0 <= ry r -> 0 <= rheight r -> ry r + rheight r <= rows m ->
  exists sub, Mat_roi m r = Some sub /\ mat_depth sub = mat_depth m /\
              rows sub = rheight r /\ cols sub = rwidth r.
Proof.
  intros. unfold Mat_roi.
  repeat match goal with
         | H : _ <= _ |- _ => apply Z.leb_le in H; rewrite H; clear H
         end.
  cbn. eexists; repeat split.
Qed.



End RoiFacts.

(** ** The callback, path by path *)

Section CallbackFacts.
Variable L : Lib.

(** Neither branch of lines 108-116 writes the input buffer. *)
Lemma make_mask_input (raw_msg : ImageMsg) (cv_ptr : CvImage) :
  input_buf (fst (make_mask L raw_msg cv_ptr)) = image cv_ptr.
Proof.
  unfold make_mask.
  destruct (String.eqb (encoding raw_msg) TYPE_8UC1); [reflexivity|].
  cbn [load input_buf]. destruct (minMaxIdx L _ _) as [minVal maxVal].
  destruct (scale_of minVal maxVal) as [alpha beta]. reflexivity.
Qed.

(** Past the two checks the callback is lines 105-138. *)
Lemma imageCb_single_channel (raw_msg : ImageMsg) (cv_ptr : CvImage) :
  toCvShare L raw_msg = Some cv_ptr ->
  numChannels L (encoding raw_msg) = Some 1 ->
  exists h m,
    make_mask L raw_msg cv_ptr = (h, m) /\
    input_buf h = image cv_ptr /\
    contour_input L raw_msg = Some (load h m) /\
    imageCb L raw_msg = crop_and_publish L raw_msg h (findContours L (load h m)).
Proof.
  intros Hcv Hch. unfold imageCb, contour_input. rewrite Hcv, Hch. cbn.
  pose proof (make_mask_input raw_msg cv_ptr) as Hin.
  destruct (make_mask L raw_msg cv_ptr) as [h m]. exists h, m. auto.
Qed.

(** Whatever the path, the message's pixel buffer ends as it started. *)
Lemma imageCb_input_unchanged (raw_msg : ImageMsg) (cv_ptr : CvImage) :
  toCvShare L raw_msg = Some cv_ptr ->
  r_input (imageCb L raw_msg) = Some (image cv_ptr).
Proof.
  intros Hcv. unfold imageCb. rewrite Hcv.
  destruct (numChannels L (encoding raw_msg)) as [n|]; [|reflexivity].
  destruct (negb (n =? 1)); [reflexivity|].
  pose proof (make_mask_input raw_msg cv_ptr) as Hin.
  destruct (make_mask L raw_msg cv_ptr) as [h m]. cbn in Hin.
  unfold crop_and_publish.
  destruct (nth_error _ _); [|cbn; congruence].
  destruct (Mat_roi _ _); cbn; congruence.
Qed.

(** A publication happens only on the path through line 138. *)
Lemma imageCb_publish_inv (raw_msg out : ImageMsg) :
  In (Publish out) (r_events (imageCb L raw_msg)) ->
  exists cv_ptr, toCvShare L raw_msg = Some cv_ptr /\
                 numChannels L (encoding raw_msg) = Some 1.
Proof.
  unfold imageCb.
  destruct (toCvShare L raw_msg) as [cv_ptr|]; [|intros [H|[]]; discriminate].
  destruct (numChannels L (encoding raw_msg)) as [n|]; [|intros []].
  destruct (Z.eqb_spec n 1) as [->|]; cbn [negb]; [|intros [H|[]]; discriminate].
  intros _. eauto.
Qed.

(** Line 128 on an empty contour list. *)
Lemma crop_and_publish_nil (raw_msg : ImageMsg) (h : heap) :
  crop_and_publish L raw_msg h [] =
  mkRun (Faulted VectorIndexOutOfRange) [] (Some (input_buf h)).
Proof. reflexivity. Qed.

End CallbackFacts.

(** ** The claims *)

(** C5. Among a non-empty list of contours the callback takes the first one
    of maximal point count: no contour has more points, every earlier one
    has strictly fewer; when one contour alone has the maximal count, it is
    taken in whatever order the list comes; and it is the bounding rectangle
    of this contour that lines 128-138 crop to. *)
Theorem largest_contour_first_of_maximal (cnt : list (list Point)) :
  cnt <> [] ->
  exists c,
    nth_error cnt (max_element size_lt cnt) = Some c /\
    (forall c', In c' cnt -> (List.length c' <= List.length c)%nat) /\
    (forall j c', (j < max_element size_lt cnt)%nat -> nth_error cnt j = Some c' ->
                  (List.length c' < List.length c)%nat) /\
    (forall cnt',
        Permutation cnt cnt' ->
        (forall c', In c' cnt -> c' <> c -> (List.length c' < List.length c)%nat) ->
        nth_error cnt' (max_element size_lt cnt') = Some c) /\
    (forall L raw_msg h,
        crop_and_publish L raw_msg h cnt =
        match Mat_roi (input_buf h) (boundingRect c) with
        | Some sub =>
            mkRun Returned
              [Publish (toImageMsg L (mkCvImage (header raw_msg) (encoding raw_msg) sub))]
              (Some (input_buf h))
        | None => mkRun (Faulted CvAssertFailed) [] (Some (input_buf h))
        end).
Proof.
  intros Hne.
  destruct (max_element_spec Hne) as (c & Hc & Hmax & Hfirst).
  exists c. repeat split; try assumption.
  2: { intros L raw_msg h. unfold crop_and_publish. rewrite Hc. reflexivity. }
  intros cnt' Hperm Huniq.
  assert (Hne' : cnt' <> []).
  { intros ->. apply Permutation_sym, Permutation_nil in Hperm. contradiction. }
  destruct (max_element_spec Hne') as (c2 & Hc2 & Hmax2 & _).
  rewrite Hc2. f_equal.
  destruct (list_eq_dec Point_eq_dec c2 c) as [|Hdiff]; [assumption|exfalso].
  assert (Hin2 : In c2 cnt)
    by (apply (Permutation_in _ (Permutation_sym Hperm)), (nth_error_In _ _ Hc2)).
  assert (Hin : In c cnt') by (apply (Permutation_in _ Hperm), (nth_error_In _ _ Hc)).
  specialize (Huniq _ Hin2 Hdiff). specialize (Hmax2 _ Hin). lia.
Qed.

(** C5 on a list with a tie for the largest count: the second contour and
    the third have three points each. *)
Lemma largest_contour_first_of_maximal_witness :
  cnt_sample <> [] /\
  exists c,
    nth_error cnt_sample (max_element size_lt cnt_sample) = Some c /\
    (forall c', In c' cnt_sample -> (List.length c' <= List.length c)%nat) /\
    (forall j c', (j < max_element size_lt cnt_sample)%nat ->
                  nth_error cnt_sample j = Some c' ->
                  (List.length c' < List.length c)%nat) /\
    (forall cnt',
        Permutation cnt_sample cnt' ->
        (forall c', In c' cnt_sample -> c' <> c -> (List.length c' < List.length c)%nat) ->
        nth_error cnt' (max_element size_lt cnt') = Some c) /\
    (forall L raw_msg h,
        crop_and_publish L raw_msg h cnt_sample =
        match Mat_roi (input_buf h) (boundingRect c) with
        | Some sub =>
            mkRun Returned
              [Publish (toImageMsg L (mkCvImage (header raw_msg) (encoding raw_msg) sub))]
              (Some (input_buf h))
        | None => mkRun (Faulted CvAssertFailed) [] (Some (input_buf h))
        end).
Proof.
  split; [discriminate|].
  apply (@largest_contour_first_of_maximal cnt_sample). discriminate.
Defined.

(** C9. For a non-empty contour list whose points are pixel positions of a
    [cols m] by [rows m] image, the rectangle of the selected contour lies
    inside the image, the sub-matrix view at that rectangle exists, and
    lines 118-138 return without a fault. *)
Theorem selected_rect_within_image (m : Mat) (cnt : list (list Point)) :
  cnt <> [] ->
  0 <= cols m -> 0 <= rows m ->
  forallb (forallb (in_bounds (cols m) (rows m))) cnt = true ->
  exists c sub,
    nth_error cnt (max_element size_lt cnt) = Some c /\
    0 <= rx (boundingRect c) /\ 0 <= ry (boundingRect c) /\
    rx (boundingRect c) + rwidth (boundingRect c) <= cols m /\
    ry (boundingRect c) + rheight (boundingRect c) <= rows m /\
    Mat_roi m (boundingRect c) = Some sub /\
    (forall L raw_msg h, input_buf h = m ->
       r_out (crop_and_publish L raw_msg h cnt) = Returned).
Proof.
  intros Hne Hw Hh Hall.
  destruct (max_element_spec Hne) as (c & Hc & _).
  assert (Hcb : forallb (in_bounds (cols m) (rows m)) c = true).
  { rewrite forallb_forall in Hall. apply Hall. eapply nth_error_In; eassumption. }
  destruct (boundingRect_within c Hw Hh Hcb) as (Hx & Hy & Hrw & Hrh & Hxw & Hyh).
  destruct (Mat_roi_defined m (boundingRect c) Hx Hrw Hxw Hy Hrh Hyh) as (sub & Hsub & _).
  exists c, sub. repeat split; try assumption.
  intros L raw_msg h <-. unfold crop_and_publish. rewrite Hc. cbn [load].
  rewrite Hsub. reflexivity.
Qed.

Section Claims.
Variable L : Lib.

(** C2. A message whose encoding does not have exactly one channel (in
    particular more than one) is never cropped: the callback returns
    normally, publishes nothing and leaves the pixel buffer as it was; once
    decoded, the message is dropped at line 99 with the one error line of
    lines 100-102. *)
Theorem multi_channel_is_dropped (raw_msg : ImageMsg) (n : Z) :
  numChannels L (encoding raw_msg) = Some n ->
  n <> 1 ->
  r_out (imageCb L raw_msg) = Returned /\
  filter is_publish (r_events (imageCb L raw_msg)) = [] /\
  r_input (imageCb L raw_msg) = option_map image (toCvShare L raw_msg) /\
  (forall cv_ptr,
      toCvShare L raw_msg = Some cv_ptr ->
      imageCb L raw_msg =
        mkRun Returned
          [LogError "Only grayscale image is acceptable, got [%s]" (encoding raw_msg)]
          (Some (image cv_ptr))).
Proof.
  intros Hch Hn. unfold imageCb. rewrite Hch.
  destruct (Z.eqb_spec n 1) as [|_]; [contradiction|]. cbn [negb].
  destruct (toCvShare L raw_msg) as [cv|]; cbn; repeat split; try reflexivity.
  - intros cv_ptr [= <-]. reflexivity.
  - intros cv_ptr [=].
Qed.

(** C10. When [cv_bridge::toCvShare] throws its exception the callback logs
    it and returns: nothing is published and no image buffer is touched. *)
Theorem decode_failure_is_dropped (raw_msg : ImageMsg) :
  toCvShare L raw_msg = None ->
  imageCb L raw_msg =
    mkRun Returned [LogError "cv_bridge exception: %s" "e.what()"] None /\
  filter is_publish (r_events (imageCb L raw_msg)) = [].
Proof.
  intros Hcv. unfold imageCb. rewrite Hcv. split; reflexivity.
Qed.

(** C6. Whenever the callback publishes, the published message is the
    encoding, by [toImageMsg], of the view of the decoded input image (its
    own depth, not the 8-bit mask) at the bounding rectangle of the selected
    contour, under the header and the encoding string of the input message;
    the input pixel buffer is unchanged.  The library is asked to copy
    header and encoding from the [CvImage] into the message. *)
Theorem published_is_roi_of_input (raw_msg out : ImageMsg) :
  (forall c, header (toImageMsg L c) = cv_header c /\
             encoding (toImageMsg L c) = cv_encoding c) ->
  In (Publish out) (r_events (imageCb L raw_msg)) ->
  exists cv_ptr m c sub,
    toCvShare L raw_msg = Some cv_ptr /\
    contour_input L raw_msg = Some m /\
    nth_error (findContours L m) (max_element size_lt (findContours L m)) = Some c /\
    Mat_roi (image cv_ptr) (boundingRect c) = Some sub /\
    mat_depth sub = mat_depth (image cv_ptr) /\
    out = toImageMsg L (mkCvImage (header raw_msg) (encoding raw_msg) sub) /\
    header out = header raw_msg /\
    encoding out = encoding raw_msg /\
    r_events (imageCb L raw_msg) = [Publish out] /\
    r_input (imageCb L raw_msg) = Some (image cv_ptr).
Proof.
  intros Hlib Hpub.
  destruct (imageCb_publish_inv _ _ _ Hpub) as (cv_ptr & Hcv & Hch).
  destruct (imageCb_single_channel _ _ Hcv Hch) as (h & m & _ & Hin & Hmask & Hrun).
  rewrite Hrun in Hpub |- *. unfold crop_and_publish in Hpub |- *.
  destruct (nth_error _ _) as [c|] eqn:Hc; [|destruct Hpub].
  cbn [load] in Hpub |- *. rewrite Hin in Hpub |- *.
  destruct (Mat_roi (image cv_ptr) (boundingRect c)) as [sub|] eqn:Hsub; [|destruct Hpub].
  destruct Hpub as [Hout|[]]. injection Hout as <-.
  exists cv_ptr, (load h m), c, sub.
  repeat split; try assumption; try reflexivity.
  - unfold Mat_roi in Hsub. destruct (_ && _); [|discriminate].
    injection Hsub as <-. reflexivity.
  - apply Hlib.
  - apply Hlib.
Qed.


(** X2. The success path: a decoded single-channel message whose mask has at
    least one contour, all contour points being pixel positions of the
    image, is answered by exactly one published message and a normal
    return. *)
Theorem nonempty_contours_publish_once
    (raw_msg : ImageMsg) (cv_ptr : CvImage) (m : Mat) :
  toCvShare L raw_msg = Some cv_ptr ->
  numChannels L (encoding raw_msg) = Some 1 ->
  contour_input L raw_msg = Some m ->
  findContours L m <> [] ->
  0 <= cols (image cv_ptr) -> 0 <= rows (image cv_ptr) ->
  forallb (forallb (in_bounds (cols (image cv_ptr)) (rows (image cv_ptr))))
    (findContours L m) = true ->
  exists out,
    imageCb L raw_msg = mkRun Returned [Publish out] (Some (image cv_ptr)).
Proof.
  intros Hcv Hch Hmask Hne Hw Hh Hall.
  destruct (imageCb_single_channel L _ Hcv Hch) as (h & m' & _ & Hin & Hmask' & Hrun).
  rewrite Hmask in Hmask'. injection Hmask' as ->.
  destruct (max_element_spec Hne) as (c & Hc & _).
  assert (Hcb : forallb (in_bounds (cols (image cv_ptr)) (rows (image cv_ptr))) c = true).
  { rewrite forallb_forall in Hall. apply Hall. eapply nth_error_In; eassumption. }
  destruct (boundingRect_within c Hw Hh Hcb) as (Hx & Hy & Hrw & Hrh & Hxw & Hyh).
  destruct (Mat_roi_defined (image cv_ptr) (boundingRect c) Hx Hrw Hxw Hy Hrh Hyh)
    as (sub & Hsub & _).
  rewrite Hrun. unfold crop_and_publish. rewrite Hc. cbn [load].
  rewrite Hin, Hsub. eexists. reflexivity.
Qed.

End Claims.

(** ** The callback on the reference library *)

(** The reference routines on small inputs.  A filled 3 by 3 block: its
    border from the top-left corner, downwards first. *)
Example contours_of_filled_block :
  Ref.findContours (mkMat CV_8U 1 3 3 [[1; 1; 1]; [1; 1; 1]; [1; 1; 1]]%float) =
  [[mkPoint 0 0; mkPoint 0 1; mkPoint 0 2; mkPoint 1 2;
    mkPoint 2 2; mkPoint 2 1; mkPoint 2 0; mkPoint 1 0]].
Proof. vm_compute. reflexivity. Qed.

(** A one-pixel-wide line is walked there and back. *)
Example contours_of_line :
  Ref.findContours (mkMat CV_8U 1 1 4 [[1; 1; 1; 1]]%float) =
  [[mkPoint 0 0; mkPoint 1 0; mkPoint 2 0; mkPoint 3 0; mkPoint 2 0; mkPoint 1 0]].
Proof. vm_compute. reflexivity. Qed.

(** External borders only: a dot inside a ring is not reported. *)
Example contours_skip_inner_regions :
  map (@List.length Point)
    (Ref.findContours
       (mkMat CV_8U 1 5 5
          [[1; 1; 1; 1; 1]; [1; 0; 0; 0; 1]; [1; 0; 1; 0; 1];
           [1; 0; 0; 0; 1]; [1; 1; 1; 1; 1]]%float)) = [16%nat].
Proof. vm_compute. reflexivity. Qed.

(** Rounding is to nearest, ties to even; a NaN gives the indefinite value,
    which saturates to 0. *)
Example cvRound_cases :
  map Ref.cvRound [0.5; 1.5; 2.5; -0.5; 254.75; nan; infinity]%float =
  [0; 2; 2; 0; 255; Ref.INT_MIN; Ref.INT_MIN] /\
  Ref.saturate_u8 Ref.INT_MIN = 0 /\ Ref.saturate_u8 300 = 255.
Proof. vm_compute. repeat split; reflexivity. Qed.

(** Encoding the decoded image gives back the message. *)
Example toImageMsg_of_decoded :
  option_map (toImageMsg RefLib) (toCvShare RefLib msg_ramp2) = Some msg_ramp2.
Proof. vm_compute. reflexivity. Qed.

Lemma decode_block : toCvShare RefLib msg_block = Some cv_block.
Proof. vm_compute. reflexivity. Qed.

Lemma decode_full : toCvShare RefLib msg_full = Some cv_full.
Proof. vm_compute. reflexivity. Qed.

Lemma decode_rgb : toCvShare RefLib msg_rgb = Some cv_rgb.
Proof. vm_compute. reflexivity. Qed.

Lemma contours_block : findContours RefLib (image cv_block) = cnt_block.
Proof. vm_compute. reflexivity. Qed.

Lemma RefLib_passthrough (c : CvImage) :
  header (toImageMsg RefLib c) = cv_header c /\
  encoding (toImageMsg RefLib c) = cv_encoding c.
Proof. split; reflexivity. Qed.

(** C9 on the contour of the block of [msg_block]. *)
Lemma selected_rect_within_image_witness :
  (cnt_block <> [] /\ 0 <= cols (image cv_block) /\ 0 <= rows (image cv_block) /\
   forallb (forallb (in_bounds (cols (image cv_block)) (rows (image cv_block)))) cnt_block
   = true) /\
  exists c sub,
    nth_error cnt_block (max_element size_lt cnt_block) = Some c /\
    0 <= rx (boundingRect c) /\ 0 <= ry (boundingRect c) /\
    rx (boundingRect c) + rwidth (boundingRect c) <= cols (image cv_block) /\
    ry (boundingRect c) + rheight (boundingRect c) <= rows (image cv_block) /\
    Mat_roi (image cv_block) (boundingRect c) = Some sub /\
    (forall L raw_msg h, input_buf h = image cv_block ->
       r_out (crop_and_publish L raw_msg h cnt_block) = Returned).
Proof.
  assert (H1 : cnt_block <> []) by discriminate.
  assert (H2 : 0 <= cols (image cv_block)) by (cbn; lia).
  assert (H3 : 0 <= rows (image cv_block)) by (cbn; lia).
  assert (H4 : forallb (forallb (in_bounds (cols (image cv_block)) (rows (image cv_block))))
                 cnt_block = true) by reflexivity.
  split; [tauto|].
  exact (@selected_rect_within_image (image cv_block) cnt_block H1 H2 H3 H4).
Defined.

(** C2 on a 1 by 1 rgb8 message. *)
Lemma multi_channel_is_dropped_witness :
  (numChannels RefLib (encoding msg_rgb) = Some 3 /\ 3 <> 1) /\
  toCvShare RefLib msg_rgb = Some cv_rgb /\
  r_out (imageCb RefLib msg_rgb) = Returned /\
  filter is_publish (r_events (imageCb RefLib msg_rgb)) = [] /\
  r_input (imageCb RefLib msg_rgb) = option_map image (toCvShare RefLib msg_rgb) /\
  (forall cv_ptr,
      toCvShare RefLib msg_rgb = Some cv_ptr ->
      imageCb RefLib msg_rgb =
        mkRun Returned
          [LogError "Only grayscale image is acceptable, got [%s]" (encoding msg_rgb)]
          (Some (image cv_ptr))).
Proof.
  assert (H1 : numChannels RefLib (encoding msg_rgb) = Some 3) by reflexivity.
  assert (H2 : 3 <> 1) by lia.
  split; [tauto|]. split; [exact decode_rgb|].
  exact (@multi_channel_is_dropped RefLib msg_rgb 3 H1 H2).
Defined.

(** C10 on an rgb8 message one byte short. *)
Lemma decode_failure_is_dropped_witness :
  toCvShare RefLib msg_truncated = None /\
  imageCb RefLib msg_truncated =
    mkRun Returned [LogError "cv_bridge exception: %s" "e.what()"] None /\
  filter is_publish (r_events (imageCb RefLib msg_truncated)) = [].
Proof.
  assert (H1 : toCvShare RefLib msg_truncated = None) by reflexivity.
  split; [exact H1|].
  exact (@decode_failure_is_dropped RefLib msg_truncated H1).
Defined.

(** C6 on [msg_block]: what is published is [msg_full]. *)
Lemma published_is_roi_of_input_witness :
  ((forall c, header (toImageMsg RefLib c) = cv_header c /\
              encoding (toImageMsg RefLib c) = cv_encoding c) /\
   In (Publish msg_full) (r_events (imageCb RefLib msg_block))) /\
  exists cv_ptr m c sub,
    toCvShare RefLib msg_block = Some cv_ptr /\
    contour_input RefLib msg_block = Some m /\
    nth_error (findContours RefLib m) (max_element size_lt (findContours RefLib m)) = Some c /\
    Mat_roi (image cv_ptr) (boundingRect c) = Some sub /\
    mat_depth sub = mat_depth (image cv_ptr) /\
    msg_full = toImageMsg RefLib (mkCvImage (header msg_block) (encoding msg_block) sub) /\
    header msg_full = header msg_block /\
    encoding msg_full = encoding msg_block /\
    r_events (imageCb RefLib msg_block) = [Publish msg_full] /\
    r_input (imageCb RefLib msg_block) = Some (image cv_ptr).
Proof.
  assert (H1 := RefLib_passthrough).
  assert (H2 : In (Publish msg_full) (r_events (imageCb RefLib msg_block)))
    by (vm_compute; left; reflexivity).
  split; [split; assumption|].
  exact (@published_is_roi_of_input RefLib msg_block msg_full H1 H2).
Defined.

(** C1 (the code at the failing input).  Whenever the contour search of a
    decoded single-channel message finds nothing, [std::max_element] returns
    [cnt.end()] and line 128 indexes the empty vector: the callback faults,
    with no error line and no publication.  The all-zero 8UC1 image
    [msg_all_zero] is such a message. *)
Theorem all_zero_image_faults :
  (forall L raw_msg cv_ptr m,
      toCvShare L raw_msg = Some cv_ptr ->
      numChannels L (encoding raw_msg) = Some 1 ->
      contour_input L raw_msg = Some m ->
      findContours L m = [] ->
      imageCb L raw_msg =
        mkRun (Faulted VectorIndexOutOfRange) [] (Some (image cv_ptr))) /\
  toCvShare RefLib msg_all_zero = Some cv_all_zero /\
  nonzero_points (image cv_all_zero) = [] /\
  contour_input RefLib msg_all_zero = Some (image cv_all_zero) /\
  findContours RefLib (image cv_all_zero) = [] /\
  imageCb RefLib msg_all_zero =
    mkRun (Faulted VectorIndexOutOfRange) [] (Some (image cv_all_zero)).
Proof.
  split.
  - intros L raw_msg cv_ptr m Hcv Hch Hmask Hnil.
    destruct (imageCb_single_channel L _ Hcv Hch) as (h & m' & _ & Hin & Hmask' & Hrun).
    rewrite Hmask in Hmask'. injection Hmask' as ->.
    rewrite Hrun, Hnil, crop_and_publish_nil, Hin. reflexivity.
  - vm_compute. repeat split; reflexivity.
Qed.

(** C3 (the code at the failing input).  On a 16UC1 image whose non-zero
    pixels are all 5 the range is zero, the scale and offset of line 115 are
    the two infinities, every pixel maps to a NaN, and with the conversion
    of the reference library (NaN to 0) the mask is empty and the callback
    faults at line 128. *)
Theorem degenerate_range_faults :
  toCvShare RefLib msg_flat16 = Some cv_flat16 /\
  minMaxIdx RefLib (image cv_flat16) (ne_zero (image cv_flat16)) = (5%float, 5%float) /\
  scale_of 5 5 = (infinity, neg_infinity) /\
  PrimFloat.is_nan (5 * infinity + neg_infinity)%float = true /\
  (exists m, contour_input RefLib msg_flat16 = Some m /\ nonzero_points m = []) /\
  imageCb RefLib msg_flat16 =
    mkRun (Faulted VectorIndexOutOfRange) [] (Some (image cv_flat16)).
Proof.
  vm_compute. repeat split; try reflexivity.
  eexists. split; reflexivity.
Qed.

(** C7 (counterexample).  A mono8 message is 8-bit unsigned with one
    channel, yet its encoding string is not "8UC1": the callback normalises
    it, and the matrix handed to the contour search, [[0; 255]], is not the
    input [[1; 2]]. *)
Lemma mono8_mask_is_normalised :
  Ref.getCvType (encoding msg_mono8) = Some (CV_8U, 1) /\
  toCvShare RefLib msg_mono8 = Some cv_mono8 /\
  exists m,
    contour_input RefLib msg_mono8 = Some m /\
    elems m = [[0; 255]]%float /\
    elems (image cv_mono8) = [[1; 2]]%float /\
    m <> image cv_mono8.
Proof.
  split; [reflexivity|]. split; [vm_compute; reflexivity|].
  eexists. split; [vm_compute; reflexivity|].
  repeat split.
  intros H. apply (f_equal first_is_zero) in H. vm_compute in H. discriminate.
Qed.


(** X2 on [msg_block]. *)
Lemma nonempty_contours_publish_once_witness :
  (toCvShare RefLib msg_block = Some cv_block /\
   numChannels RefLib (encoding msg_block) = Some 1 /\
   contour_input RefLib msg_block = Some (image cv_block) /\
   findContours RefLib (image cv_block) <> [] /\
   0 <= cols (image cv_block) /\ 0 <= rows (image cv_block) /\
   forallb (forallb (in_bounds (cols (image cv_block)) (rows (image cv_block))))
     (findContours RefLib (image cv_block)) = true) /\
  exists out,
    imageCb RefLib msg_block = mkRun Returned [Publish out] (Some (image cv_block)).
Proof.
  assert (H1 := decode_block).
  assert (H2 : numChannels RefLib (encoding msg_block) = Some 1) by reflexivity.
  assert (H3 : contour_input RefLib msg_block = Some (image cv_block))
    by (vm_compute; reflexivity).
  assert (H4 : findContours RefLib (image cv_block) <> [])
    by (rewrite contours_block; discriminate).
  assert (H5 : 0 <= cols (image cv_block)) by (cbn; lia).
  assert (H6 : 0 <= rows (image cv_block)) by (cbn; lia).
  assert (H7 : forallb (forallb (in_bounds (cols (image cv_block)) (rows (image cv_block))))
                 (findContours RefLib (image cv_block)) = true)
    by (rewrite contours_block; reflexivity).
  split; [tauto|].
  exact (@nonempty_contours_publish_once RefLib msg_block cv_block (image cv_block)
           H1 H2 H3 H4 H5 H6 H7).
Defined.

(** ** Further properties of the callback *)

Section CallbackShape.
Variable L : Lib.

(** What a publication tells about the run: the path through lines 105-138
    was taken to its end. *)
Lemma imageCb_publish_shape (raw_msg out : ImageMsg) :
  In (Publish out) (r_events (imageCb L raw_msg)) ->
  exists cv_ptr m c sub,
    toCvShare L raw_msg = Some cv_ptr /\
    contour_input L raw_msg = Some m /\
    nth_error (findContours L m) (max_element size_lt (findContours L m)) = Some c /\
    Mat_roi (image cv_ptr) (boundingRect c) = Some sub /\
    out = toImageMsg L (mkCvImage (header raw_msg) (encoding raw_msg) sub).
Proof.
  intros Hpub.
  destruct (imageCb_publish_inv _ _ _ Hpub) as (cv_ptr & Hcv & Hch).
  destruct (imageCb_single_channel _ _ Hcv Hch) as (h & m & _ & Hin & Hmask & Hrun).
  rewrite Hrun in Hpub. unfold crop_and_publish in Hpub.
  destruct (nth_error _ _) as [c|] eqn:Hc; [|destruct Hpub].
  cbn [load] in Hpub. rewrite Hin in Hpub.
  destruct (Mat_roi (image cv_ptr) (boundingRect c)) as [sub|] eqn:Hsub; [|destruct Hpub].
  destruct Hpub as [Hout|[]]. injection Hout as <-.
  exists cv_ptr, (load h m), c, sub. auto.
Qed.

End CallbackShape.

(** A view exists only inside the matrix, and is then made of slices. *)
Lemma Mat_roi_inv (m sub : Mat) (r : Rect) :
  Mat_roi m r = Some sub ->
  (0 <= rx r /\ 0 <= rwidth r /\ rx r + rwidth r <= cols m /\
   0 <= ry r /\ 0 <= rheight r /\ ry r + rheight r <= rows m) /\
  sub = mkMat (mat_depth m) (channels m) (rheight r) (rwidth r)
          (map (slice (rx r * channels m) (rwidth r * channels m))
             (slice (ry r) (rheight r) (elems m))).
Proof.
  unfold Mat_roi. destruct (_ && _) eqn:Hb; [|discriminate].
  intros [= <-]. rewrite !andb_true_iff, !Z.leb_le in Hb. split; [lia|reflexivity].
Qed.

Lemma nth_error_slice {A} (l : list A) (from len i : Z) :
  0 <= from -> 0 <= i < len ->
  nth_error (slice from len l) (Z.to_nat i) = nth_error l (Z.to_nat (from + i)).
Proof.
  intros Hf Hi. unfold slice. rewrite nth_error_firstn.
  destruct (Nat.ltb_spec (Z.to_nat i) (Z.to_nat len)) as [_|Hge]; [|lia].
  rewrite nth_error_skipn. f_equal. lia.
Qed.

(** Each sample of a view is the sample of the matrix at the shifted
    position. *)
Lemma Mat_roi_at (m sub : Mat) (r : Rect) (i j : Z) :
  Mat_wf m -> Mat_roi m r = Some sub ->
  0 <= i < rows sub -> 0 <= j < cols sub * channels m ->
  exists v, Mat_at sub i j = Some v /\
            Mat_at m (ry r + i) (rx r * channels m + j) = Some v.
Proof.
  intros (Hc & Hr & Hrows) Hroi Hi Hj.
  apply Mat_roi_inv in Hroi as [(Hx & Hw & Hxw & Hy & Hh & Hyh) ->].
  cbn [rows cols] in Hi, Hj. unfold Mat_at. cbn [elems].
  assert (Hch : 0 < channels m).
  { destruct (Z.lt_ge_cases 0 (channels m)) as [|Hle]; [assumption|].
    assert (rwidth r * channels m <= 0) by (apply Z.mul_nonneg_nonpos; lia). lia. }
  assert (Hxc : 0 <= rx r * channels m) by (apply Z.mul_nonneg_nonneg; lia).
  assert (Hwc : (rx r + rwidth r) * channels m <= cols m * channels m)
    by (apply Z.mul_le_mono_nonneg_r; lia).
  rewrite nth_error_map, nth_error_slice by lia.
  destruct (nth_error (elems m) (Z.to_nat (ry r + i))) as [row|] eqn:Hrow.
  - cbn [option_map]. rewrite nth_error_slice by lia.
    rewrite Forall_forall in Hrows. pose proof (Hrows _ (nth_error_In _ _ Hrow)) as Hlen.
    destruct (nth_error row (Z.to_nat (rx r * channels m + j))) as [v|] eqn:Hv; [eauto|].
    apply nth_error_None in Hv. lia.
  - apply nth_error_None in Hrow. lia.
Qed.

Section Double.
Local Open Scope float_scope.

(** [v - v] is [+0] for every number [v]. *)
Lemma sub_self_zero (v : float) :
  is_finite v = true -> Prim2SF (v - v) = S754_zero false.
Proof.
  unfold is_finite. intros Hv. rewrite sub_spec.
  destruct (Prim2SF v) as [s|s| |s m e]; try discriminate.
  - destruct s; reflexivity.
  - unfold SF64sub, SFsub. rewrite Z.min_id. unfold shl_align. rewrite Z.sub_diag.
    reflexivity.
Qed.

(** No quotient by [+0] is a number. *)
Lemma div_by_zero_not_finite (x z : float) :
  Prim2SF z = S754_zero false -> is_finite (x / z) = false.
Proof.
  intros Hz. unfold is_finite. rewrite div_spec, Hz.
  destruct (Prim2SF x) as [s|s| |s m e]; reflexivity.
Qed.

Lemma scale_by_zero_range (z : float) :
  Prim2SF z = S754_zero false -> 255 / z = infinity.
Proof.
  intros Hz. rewrite <- (SF2Prim_Prim2SF (255 / z)), div_spec, Hz. reflexivity.
Qed.

(** With an infinite scale and an offset that is no number, no sample maps
    to a number. *)
Lemma affine_not_finite (p b : float) :
  is_finite b = false -> is_finite (p * infinity + b) = false.
Proof.
  unfold is_finite. intros Hb. rewrite add_spec, mul_spec.
  change (Prim2SF infinity) with (S754_infinity false).
  destruct (Prim2SF b) as [sb|sb| |sb mb eb]; try discriminate;
    destruct (Prim2SF p) as [s|s| |s m e]; try reflexivity;
    cbn; try destruct s; try destruct sb; reflexivity.
Qed.

End Double.

(** Settles the three parts of X3 on a run that is given in full. *)
Ltac one_event_run :=
  cbn; split; [lia|split];
  [ intros f Hf; first [discriminate Hf | reflexivity]
  | intros out Hin;
    repeat match goal with
           | H : _ \/ _ |- _ => destruct H
           | H : False |- _ => destruct H
           end;
    try discriminate;
    match goal with
    | H : Publish _ = Publish _ |- _ => injection H as <-; split; reflexivity
    end ].

Section MoreOnCallback.
Variable L : Lib.

(** X3. One call emits at most one event: never two publications, never
    an error line together with a publication; a call that faults has
    emitted nothing, and a call that publishes returns normally. *)
Theorem imageCb_emits_at_most_once (raw_msg : ImageMsg) :
  (List.length (r_events (imageCb L raw_msg)) <= 1)%nat /\
  (forall f, r_out (imageCb L raw_msg) = Faulted f -> r_events (imageCb L raw_msg) = []) /\
  (forall out, In (Publish out) (r_events (imageCb L raw_msg)) ->
               r_events (imageCb L raw_msg) = [Publish out] /\
               r_out (imageCb L raw_msg) = Returned).
Proof.
  unfold imageCb.
  destruct (toCvShare L raw_msg) as [cv_ptr|]; [|one_event_run].
  destruct (numChannels L (encoding raw_msg)) as [n|]; [|one_event_run].
  destruct (negb (n =? 1)); [one_event_run|].
  destruct (make_mask L raw_msg cv_ptr) as [h m]. unfold crop_and_publish.
  destruct (nth_error _ _) as [c|]; [|one_event_run].
  destruct (Mat_roi _ _) as [sub|]; one_event_run.
Qed.

(** X4. The geometry of a publication: the published image is the view of
    the decoded input at the bounding rectangle of the selected contour (the
    first largest of the contours of the mask); it has the size of that
    rectangle, which lies inside the input image, so the crop is never
    larger than the input; every point of the selected contour lies in the
    cropped region, hence is a pixel position of the input; and the crop of
    a contour with a point has at least one pixel. *)
Theorem published_crop_geometry (raw_msg out : ImageMsg) :
  In (Publish out) (r_events (imageCb L raw_msg)) ->
  exists cv_ptr m c sub,
    toCvShare L raw_msg = Some cv_ptr /\
    contour_input L raw_msg = Some m /\
    nth_error (findContours L m) (max_element size_lt (findContours L m)) = Some c /\
    Mat_roi (image cv_ptr) (boundingRect c) = Some sub /\
    out = toImageMsg L (mkCvImage (header raw_msg) (encoding raw_msg) sub) /\
    rows sub = rheight (boundingRect c) /\ cols sub = rwidth (boundingRect c) /\
    0 <= rows sub <= rows (image cv_ptr) /\ 0 <= cols sub <= cols (image cv_ptr) /\
    0 <= rx (boundingRect c) /\ rx (boundingRect c) + cols sub <= cols (image cv_ptr) /\
    0 <= ry (boundingRect c) /\ ry (boundingRect c) + rows sub <= rows (image cv_ptr) /\
    (forall p, In p c ->
       rx (boundingRect c) <= px p < rx (boundingRect c) + cols sub /\
       ry (boundingRect c) <= py p < ry (boundingRect c) + rows sub /\
       in_bounds (cols (image cv_ptr)) (rows (image cv_ptr)) p = true) /\
    (c <> [] -> 1 <= rows sub /\ 1 <= cols sub).
Proof.
  intros Hpub.
  destruct (imageCb_publish_shape _ _ _ Hpub)
    as (cv_ptr & m & c & sub & Hcv & Hm & Hc & Hroi & ->).
  pose proof Hroi as Hinv.
  apply Mat_roi_inv in Hinv as [(Hx & Hw & Hxw & Hy & Hh & Hyh) Esub].
  assert (Er : rows sub = rheight (boundingRect c)) by (rewrite Esub; reflexivity).
  assert (Ec : cols sub = rwidth (boundingRect c)) by (rewrite Esub; reflexivity).
  exists cv_ptr, m, c, sub.
  split; [exact Hcv|]. split; [exact Hm|]. split; [exact Hc|]. split; [exact Hroi|].
  split; [reflexivity|]. split; [exact Er|]. split; [exact Ec|]. rewrite Er, Ec.
  split; [lia|]. split; [lia|]. split; [lia|]. split; [lia|]. split; [lia|].
  split; [lia|]. split.
  - intros p Hp. pose proof (boundingRect_encloses c p Hp) as He.
    split; [lia|]. split; [lia|]. apply in_bounds_spec. lia.
  - intros Hne. destruct c as [|q qs]; [congruence|].
    pose proof (boundingRect_encloses (q :: qs) q (or_introl eq_refl)). lia.
Qed.

(** X5. The pixels of a publication: each sample of the published image is
    the sample of the decoded input at the position shifted by the corner
    of the selected contour's bounding rectangle, unchanged, also when the
    mask was obtained by normalisation. *)
Theorem published_pixels_are_input_pixels (raw_msg out : ImageMsg) :
  In (Publish out) (r_events (imageCb L raw_msg)) ->
  exists cv_ptr m c sub,
    toCvShare L raw_msg = Some cv_ptr /\
    contour_input L raw_msg = Some m /\
    nth_error (findContours L m) (max_element size_lt (findContours L m)) = Some c /\
    Mat_roi (image cv_ptr) (boundingRect c) = Some sub /\
    out = toImageMsg L (mkCvImage (header raw_msg) (encoding raw_msg) sub) /\
    mat_depth sub = mat_depth (image cv_ptr) /\
    channels sub = channels (image cv_ptr) /\
    (Mat_wf (image cv_ptr) ->
     forall i j,
       0 <= i < rows sub -> 0 <= j < cols sub * channels (image cv_ptr) ->
       exists v,
         Mat_at sub i j = Some v /\
         Mat_at (image cv_ptr) (ry (boundingRect c) + i)
           (rx (boundingRect c) * channels (image cv_ptr) + j) = Some v).
Proof.
  intros Hpub.
  destruct (imageCb_publish_shape _ _ _ Hpub)
    as (cv_ptr & m & c & sub & Hcv & Hm & Hc & Hroi & ->).
  pose proof Hroi as Hinv. apply Mat_roi_inv in Hinv as [_ Esub].
  exists cv_ptr, m, c, sub.
  split; [exact Hcv|]. split; [exact Hm|]. split; [exact Hc|]. split; [exact Hroi|].
  split; [reflexivity|]. split; [rewrite Esub; reflexivity|].
  split; [rewrite Esub; reflexivity|].
  intros Hwf i j Hi Hj. apply Mat_roi_at; assumption.
Qed.

(** X6. A range of zero, in general: when the masked minimum and maximum of
    an image not tagged "8UC1" are one and the same number [v], line 113
    gives [ra = +0], the scale handed to [convertTo] at line 115 is
    [+infinity], the offset is an infinity or a NaN, and no sample [p] has
    a number for [p * scale + offset]. *)
Theorem zero_range_scale_is_infinite (raw_msg : ImageMsg) (cv_ptr : CvImage) (v : float) :
  toCvShare L raw_msg = Some cv_ptr ->
  numChannels L (encoding raw_msg) = Some 1 ->
  encoding raw_msg <> TYPE_8UC1 ->
  minMaxIdx L (image cv_ptr) (ne_zero (image cv_ptr)) = (v, v) ->
  is_finite v = true ->
  exists beta,
    scale_of v v = (infinity, beta) /\
    is_finite beta = false /\
    contour_input L raw_msg = Some (convertTo L (image cv_ptr) infinity beta) /\
    (forall p, is_finite (p * infinity + beta)%float = false).
Proof.
  intros Hcv Hch Henc Hmm Hv.
  pose proof (sub_self_zero v Hv) as Hz.
  exists (- v * 255 / (v - v))%float.
  assert (Hs : scale_of v v = (infinity, (- v * 255 / (v - v))%float)).
  { unfold scale_of. rewrite (scale_by_zero_range _ Hz). reflexivity. }
  assert (Hb : is_finite (- v * 255 / (v - v))%float = false)
    by (apply div_by_zero_not_finite; exact Hz).
  repeat split; try assumption.
  - unfold contour_input, make_mask. rewrite Hcv, Hch.
    apply String.eqb_neq in Henc. rewrite Henc. cbn [load input_buf].
    rewrite Hmm, Hs. reflexivity.
  - intros p. apply affine_not_finite. exact Hb.
Qed.

End MoreOnCallback.

(** ** The lazy subscription *)

Section NodeFacts.

(** The matched callback touches [sub_raw_] only. *)
Lemma matched_callback_frame (node : CropNonZeroNode) (n : nat) (q : QoS) :
  parameters (matched_callback node n q) = parameters node /\
  image_topic_ (matched_callback node n q) = image_topic_ node /\
  pub_ (matched_callback node n q) = pub_ node.
Proof.
  unfold matched_callback. destruct (n =? 0)%nat; [auto|].
  destruct (sub_raw_ node); auto.
Qed.

(** After the callback the subscriber exists exactly when the count it saw
    was not zero. *)
Lemma matched_callback_sub (node : CropNonZeroNode) (n : nat) (q : QoS) :
  sub_raw_ (matched_callback node n q) = None <-> n = 0%nat.
Proof.
  unfold matched_callback. destruct (Nat.eqb_spec n 0) as [->|Hn]; cbn; [tauto|].
  destruct (sub_raw_ node) eqn:Hs; cbn; [rewrite Hs|]; split; try discriminate;
    intros; contradiction.
Qed.

Lemma getTransport_frame (node : CropNonZeroNode) (n : nat) (q : QoS) :
  getTransport (matched_callback node n q) = getTransport node.
Proof.
  unfold getTransport. destruct (matched_callback_frame node n q) as (-> & _). reflexivity.
Qed.

(** A subscriber, once there, is on the node's topic with the node's
    transport, whatever callbacks follow. *)
Lemma after_matches_inv (ms : list (nat * QoS)) (node : CropNonZeroNode) :
  (forall s, sub_raw_ node = Some s ->
             sub_topic s = image_topic_ node /\ sub_transport s = getTransport node) ->
  parameters (after_matches node ms) = parameters node /\
  image_topic_ (after_matches node ms) = image_topic_ node /\
  pub_ (after_matches node ms) = pub_ node /\
  (forall s, sub_raw_ (after_matches node ms) = Some s ->
             sub_topic s = image_topic_ node /\ sub_transport s = getTransport node).
Proof.
  revert node. induction ms as [|[n q] ms IH]; intros node Hnode; [cbn; auto|].
  cbn [after_matches fold_left fst snd].
  destruct (matched_callback_frame node n q) as (Hp & Ht & Hb).
  destruct (IH (matched_callback node n q)) as (Hp' & Ht' & Hb' & Hs').
  - rewrite getTransport_frame, Ht. unfold matched_callback.
    destruct (n =? 0)%nat; [discriminate|].
    destruct (sub_raw_ node) as [s0|] eqn:Hs0.
    + rewrite Hs0. exact Hnode.
    + cbn. intros s [= <-]. cbn. auto.
  - unfold after_matches in *. rewrite Hp', Ht', Hb', Hp, Ht, Hb.
    split; [reflexivity|]. split; [reflexivity|]. split; [reflexivity|].
    intros s Hs. rewrite <- Ht, <- (getTransport_frame node n q).
    apply Hs'. exact Hs.
Qed.

(** While the count stays above zero a subscriber is kept as it is. *)
Lemma after_matches_keep (ms : list (nat * QoS)) (node : CropNonZeroNode) (s : Subscriber) :
  sub_raw_ node = Some s ->
  Forall (fun m => fst m <> 0%nat) ms ->
  after_matches node ms = node.
Proof.
  intros Hs Hms. revert node Hs.
  induction Hms as [|[n q] ms Hn _ IH]; intros node Hs; [reflexivity|].
  cbn [after_matches fold_left fst snd]. cbn in Hn.
  assert (Hstep : matched_callback node n q = node).
  { unfold matched_callback. apply Nat.eqb_neq in Hn. rewrite Hn, Hs. reflexivity. }
  rewrite Hstep. apply IH. exact Hs.
Qed.

Lemma getTransport_new (options : NodeOptions) :
  getTransport (CropNonZeroNode_new options) =
  match get_parameter "image_transport" (parameter_overrides options) with
  | Some t => t
  | None => "raw"
  end.
Proof. reflexivity. Qed.

End NodeFacts.

(** X7. The subscription follows the consumers: after any sequence of
    matched callbacks on a freshly constructed node, the subscriber exists
    exactly when the count reported last was not zero (it does not exist
    before the first callback); when it exists it is on the resolved
    "image_raw" topic with the transport of the "image_transport" parameter
    ("raw" unless overridden); topic, parameters and publisher never
    change. *)
Theorem lazy_subscription_follows_consumers (options : NodeOptions) (ms : list (nat * QoS)) :
  (sub_raw_ (after_matches (CropNonZeroNode_new options) ms) = None <->
   last (map fst ms) 0%nat = 0%nat) /\
  image_topic_ (after_matches (CropNonZeroNode_new options) ms) =
    resolve_topic_or_service_name options "image_raw" /\
  pub_ (after_matches (CropNonZeroNode_new options) ms) =
    mkPublisher (resolve_topic_or_service_name options "image") rmw_qos_profile_default true /\
  parameters (after_matches (CropNonZeroNode_new options) ms) =
    [("image_transport",
      match get_parameter "image_transport" (parameter_overrides options) with
      | Some t => t
      | None => "raw"
      end)] /\
  (forall s,
      sub_raw_ (after_matches (CropNonZeroNode_new options) ms) = Some s ->
      sub_topic s = resolve_topic_or_service_name options "image_raw" /\
      sub_transport s =
        match get_parameter "image_transport" (parameter_overrides options) with
        | Some t => t
        | None => "raw"
        end).
Proof.
  split.
  - induction ms as [|[n q] ms' _] using rev_ind; [cbn; tauto|].
    unfold after_matches. rewrite fold_left_app, map_app. cbn [fold_left fst snd map].
    rewrite last_last. apply matched_callback_sub.
  - destruct (@after_matches_inv ms (CropNonZeroNode_new options)) as (Hp & Ht & Hb & Hs).
    + intros s [=].
    + rewrite Hp, Ht, Hb. split; [reflexivity|]. split; [reflexivity|].
      split; [reflexivity|]. intros s Hsub. rewrite <- getTransport_new. apply Hs. exact Hsub.
Qed.

(** X8. The policies of a subscription are those seen when it was created:
    when the count rises from zero (or from the start) with policies [q1]
    and then stays above zero, the subscriber carries [q1], whatever
    policies the later callbacks would have read. *)
Theorem subscription_keeps_first_qos
    (options : NodeOptions) (pre rest : list (nat * QoS)) (n1 : nat) (q1 : QoS) :
  last (map fst pre) 0%nat = 0%nat ->
  n1 <> 0%nat ->
  Forall (fun m => fst m <> 0%nat) rest ->
  sub_raw_ (after_matches (CropNonZeroNode_new options) (pre ++ (n1, q1) :: rest)) =
  Some (mkSubscriber (resolve_topic_or_service_name options "image_raw")
          (match get_parameter "image_transport" (parameter_overrides options) with
           | Some t => t
           | None => "raw"
           end) q1).
Proof.
  intros Hpre Hn1 Hrest.
  set (node := after_matches (CropNonZeroNode_new options) pre).
  assert (Hnone : sub_raw_ node = None).
  { unfold node. clear node. induction pre as [|[n q] ms' _] using rev_ind; [reflexivity|].
    rewrite map_app in Hpre. cbn [map fst] in Hpre. rewrite last_last in Hpre.
    unfold after_matches. rewrite fold_left_app. cbn [fold_left fst snd].
    apply matched_callback_sub. exact Hpre. }
  destruct (@after_matches_inv pre (CropNonZeroNode_new options)) as (Hp & Ht & _).
  { intros s [=]. }
  fold node in Hp, Ht.
  assert (Hstep : matched_callback node n1 q1 =
                  mkNode (parameters node) (image_topic_ node) (pub_ node)
                    (Some (mkSubscriber (image_topic_ node) (getTransport node) q1))).
  { unfold matched_callback. apply Nat.eqb_neq in Hn1. rewrite Hn1, Hnone. reflexivity. }
  unfold after_matches. rewrite fold_left_app. cbn [fold_left fst snd].
  fold (after_matches (CropNonZeroNode_new options) pre). fold node.
  fold (after_matches (matched_callback node n1 q1) rest).
  rewrite (@after_matches_keep rest (matched_callback node n1 q1)
             (mkSubscriber (image_topic_ node) (getTransport node) q1));
    [|rewrite Hstep; reflexivity|assumption].
  rewrite Hstep. cbn [sub_raw_]. unfold getTransport. rewrite Hp, Ht. reflexivity.
Qed.

Section ProcessFacts.
Variable L : Lib.

(** While the process runs, the subscriber exists exactly when the last
    match count was not zero. *)
Lemma run_node_sub (options : NodeOptions) (evs : list node_event) :
  p_alive (run_node L options evs) = true ->
  (sub_raw_ (p_node (run_node L options evs)) = None <-> last_matched evs = 0%nat).
Proof.
  induction evs as [|ev evs IH] using rev_ind; [cbn; tauto|].
  unfold run_node, last_matched in *. rewrite !fold_left_app. cbn [fold_left].
  set (p := fold_left (node_step L) evs _) in *.
  unfold node_step at 1 2. destruct (p_alive p) eqn:Ha; cbn [negb].
  - specialize (IH eq_refl). destruct ev as [n q|raw_msg].
    + cbn [p_alive p_node]. intros _. apply matched_callback_sub.
    + intros _.
      match goal with
      | |- sub_raw_ (p_node ?x) = None <-> _ =>
          replace (p_node x) with (p_node p) by (destruct (sub_raw_ (p_node p)); reflexivity)
      end.
      exact IH.
  - rewrite Ha. discriminate.
Qed.

End ProcessFacts.

(** X9. When an image is handled: an arriving image is passed to
    [imageCb], once, exactly when no earlier call has faulted and the
    match count reported last is not zero; otherwise it leaves no trace.
    A matched event never runs the callback. *)
Theorem image_is_handled_iff_consumers
    (L : Lib) (options : NodeOptions) (evs : list node_event) :
  (forall raw_msg,
      run_node L options (evs ++ [Incoming raw_msg]) =
      if p_alive (run_node L options evs) && negb (last_matched evs =? 0)%nat
      then mkProcess (p_node (run_node L options evs))
             (is_returned (r_out (imageCb L raw_msg)))
             (p_runs (run_node L options evs) ++ [imageCb L raw_msg])
      else run_node L options evs) /\
  (forall n q,
      p_runs (run_node L options (evs ++ [Matched n q])) = p_runs (run_node L options evs)).
Proof.
  split.
  - intros raw_msg. pose proof (run_node_sub L options evs) as Hsub.
    unfold run_node in *. rewrite fold_left_app. cbn [fold_left].
    set (p := fold_left (node_step L) evs _) in *.
    unfold node_step. destruct (p_alive p) eqn:Ha; cbn [negb andb]; [|reflexivity].
    specialize (Hsub eq_refl).
    destruct (Nat.eqb_spec (last_matched evs) 0) as [H0|Hn0]; cbn [negb].
    + apply Hsub in H0. rewrite H0. reflexivity.
    + destruct (sub_raw_ (p_node p)) eqn:Hs; [reflexivity|].
      exfalso. apply Hn0, Hsub. reflexivity.
  - intros n q. unfold run_node. rewrite fold_left_app. cbn [fold_left].
    unfold node_step. destruct (p_alive _); reflexivity.
Qed.

(** ** The further properties on the reference library *)

Lemma publish_block : In (Publish msg_full) (r_events (imageCb RefLib msg_block)).
Proof. vm_compute. left. reflexivity. Qed.

(** X4 on [msg_block]: the selected contour is the border of the block, the
    view the 2 by 2 block. *)
Lemma published_crop_geometry_witness :
  In (Publish msg_full) (r_events (imageCb RefLib msg_block)) /\
  exists cv_ptr m c sub,
    toCvShare RefLib msg_block = Some cv_ptr /\
    contour_input RefLib msg_block = Some m /\
    nth_error (findContours RefLib m) (max_element size_lt (findContours RefLib m)) = Some c /\
    Mat_roi (image cv_ptr) (boundingRect c) = Some sub /\
    rows sub = rheight (boundingRect c) /\ cols sub = rwidth (boundingRect c) /\
    0 <= rx (boundingRect c) /\ rx (boundingRect c) + cols sub <= cols (image cv_ptr) /\
    0 <= ry (boundingRect c) /\ ry (boundingRect c) + rows sub <= rows (image cv_ptr).
Proof.
  split; [exact publish_block|].
  destruct (@published_crop_geometry RefLib msg_block msg_full publish_block)
    as (cv & m & c & sub & H1 & H2 & H3 & H4 & _ & H5 & H6 & _ & _ & H7 & H8 & H9 & H10 & _).
  exists cv, m, c, sub.
  exact (conj H1 (conj H2 (conj H3 (conj H4 (conj H5 (conj H6
           (conj H7 (conj H8 (conj H9 H10))))))))).
Defined.

(** X5 on [msg_block]. *)
Lemma published_pixels_are_input_pixels_witness :
  In (Publish msg_full) (r_events (imageCb RefLib msg_block)) /\
  exists cv_ptr m c sub,
    toCvShare RefLib msg_block = Some cv_ptr /\
    contour_input RefLib msg_block = Some m /\
    nth_error (findContours RefLib m) (max_element size_lt (findContours RefLib m)) = Some c /\
    Mat_roi (image cv_ptr) (boundingRect c) = Some sub /\
    (Mat_wf (image cv_ptr) ->
     forall i j,
       0 <= i < rows sub -> 0 <= j < cols sub * channels (image cv_ptr) ->
       exists v,
         Mat_at sub i j = Some v /\
         Mat_at (image cv_ptr) (ry (boundingRect c) + i)
           (rx (boundingRect c) * channels (image cv_ptr) + j) = Some v).
Proof.
  split; [exact publish_block|].
  destruct (@published_pixels_are_input_pixels RefLib msg_block msg_full publish_block)
    as (cv & m & c & sub & H1 & H2 & H3 & H4 & _ & _ & _ & H5).
  exists cv, m, c, sub.
  exact (conj H1 (conj H2 (conj H3 (conj H4 H5)))).
Defined.

(** X6 on [msg_flat16], where minimum and maximum are both 5. *)
Lemma zero_range_scale_is_infinite_witness :
  (toCvShare RefLib msg_flat16 = Some cv_flat16 /\
   numChannels RefLib (encoding msg_flat16) = Some 1 /\
   encoding msg_flat16 <> TYPE_8UC1 /\
   minMaxIdx RefLib (image cv_flat16) (ne_zero (image cv_flat16)) = (5%float, 5%float) /\
   is_finite 5 = true) /\
  exists beta,
    scale_of 5 5 = (infinity, beta) /\
    is_finite beta = false /\
    contour_input RefLib msg_flat16 = Some (convertTo RefLib (image cv_flat16) infinity beta) /\
    (forall p, is_finite (p * infinity + beta)%float = false).
Proof.
  assert (H1 : toCvShare RefLib msg_flat16 = Some cv_flat16) by (vm_compute; reflexivity).
  assert (H2 : numChannels RefLib (encoding msg_flat16) = Some 1) by reflexivity.
  assert (H3 : encoding msg_flat16 <> TYPE_8UC1) by discriminate.
  assert (H4 : minMaxIdx RefLib (image cv_flat16) (ne_zero (image cv_flat16))
               = (5%float, 5%float)) by (vm_compute; reflexivity).
  assert (H5 : is_finite 5 = true) by (vm_compute; reflexivity).
  split; [tauto|].
  exact (@zero_range_scale_is_infinite RefLib msg_flat16 cv_flat16 5%float H1 H2 H3 H4 H5).
Defined.

(** X8: consumers leave, two arrive when the publishers of the topic are
    best-effort, more arrive later. *)
Lemma subscription_keeps_first_qos_witness :
  (last (map fst [(0%nat, qos_latched)]) 0%nat = 0%nat /\
   2%nat <> 0%nat /\
   Forall (fun m : nat * QoS => fst m <> 0%nat) [(3%nat, qos_latched); (1%nat, qos_latched)]) /\
  sub_raw_ (after_matches (CropNonZeroNode_new options_compressed)
              ([(0%nat, qos_latched)] ++ (2%nat, qos_sensor)
                 :: [(3%nat, qos_latched); (1%nat, qos_latched)])) =
  Some (mkSubscriber (resolve_topic_or_service_name options_compressed "image_raw")
          (match get_parameter "image_transport" (parameter_overrides options_compressed) with
           | Some t => t
           | None => "raw"
           end) qos_sensor).
Proof.
  assert (H1 : last (map fst [(0%nat, qos_latched)]) 0%nat = 0%nat) by reflexivity.
  assert (H2 : 2%nat <> 0%nat) by discriminate.
  assert (H3 : Forall (fun m : nat * QoS => fst m <> 0%nat)
                 [(3%nat, qos_latched); (1%nat, qos_latched)])
    by (repeat constructor; discriminate).
  split; [tauto|].
  exact (@subscription_keeps_first_qos options_compressed [(0%nat, qos_latched)]
           [(3%nat, qos_latched); (1%nat, qos_latched)] 2%nat qos_sensor H1 H2 H3).
Defined.

(** ** The normalised mask *)

Section MaskedMinMax.




End MaskedMinMax.



(** C7 (amended). Which mask the contour search gets is decided by the
    encoding string alone (line 108).  When it is exactly "8UC1", line 109
    makes [m] refer to the input buffer: no buffer is written, and the
    matrix handed to the contour search is the decoded input image itself.
    For every other encoding, the 8-bit unsigned single-channel ones such
    as mono8 included, [m] keeps its own buffer, the input buffer is left as
    it is, and the matrix handed to the contour search is [convertTo] of the
    input with the scale and offset of lines 113-115. *)
Theorem mask_is_input_exactly_for_8UC1 (L : Lib) (raw_msg : ImageMsg) (cv_ptr : CvImage) :
  toCvShare L raw_msg = Some cv_ptr ->
  numChannels L (encoding raw_msg) = Some 1 ->
  (encoding raw_msg = TYPE_8UC1 ->
   make_mask L raw_msg cv_ptr =
     (mkHeap (image cv_ptr) (Mat1b_new (width raw_msg) (height raw_msg)), InputBuf) /\
   contour_input L raw_msg = Some (image cv_ptr)) /\
  (encoding raw_msg <> TYPE_8UC1 ->
   forall minVal maxVal,
     minMaxIdx L (image cv_ptr) (ne_zero (image cv_ptr)) = (minVal, maxVal) ->
     make_mask L raw_msg cv_ptr =
       (mkHeap (image cv_ptr)
          (convertTo L (image cv_ptr) (fst (scale_of minVal maxVal))
             (snd (scale_of minVal maxVal))),
        LocalBuf) /\
     contour_input L raw_msg =
       Some (convertTo L (image cv_ptr) (fst (scale_of minVal maxVal))
               (snd (scale_of minVal maxVal)))).
Proof.
  intros Hcv Hch. split.
  - intros Henc.
    assert (Hmm : make_mask L raw_msg cv_ptr =
                  (mkHeap (image cv_ptr) (Mat1b_new (width raw_msg) (height raw_msg)),
                   InputBuf)).
    { unfold make_mask. rewrite Henc. reflexivity. }
    split; [exact Hmm|].
    unfold contour_input. rewrite Hcv, Hch, Hmm. reflexivity.
  - intros Henc minVal maxVal Hmm. apply String.eqb_neq in Henc.
    assert (Hmk : make_mask L raw_msg cv_ptr =
                  (mkHeap (image cv_ptr)
                     (convertTo L (image cv_ptr) (fst (scale_of minVal maxVal))
                        (snd (scale_of minVal maxVal))),
                   LocalBuf)).
    { unfold make_mask. rewrite Henc. cbn [load input_buf]. rewrite Hmm.
      destruct (scale_of minVal maxVal) as [alpha beta]. reflexivity. }
    split; [exact Hmk|].
    unfold contour_input. rewrite Hcv, Hch, Hmk. reflexivity.
Qed.

(** C7 (amended) on the mono8 message [msg_mono8]. *)
Lemma mask_is_input_exactly_for_8UC1_witness :
  (toCvShare RefLib msg_mono8 = Some cv_mono8 /\
   numChannels RefLib (encoding msg_mono8) = Some 1) /\
  encoding msg_mono8 <> TYPE_8UC1 /\
  minMaxIdx RefLib (image cv_mono8) (ne_zero (image cv_mono8)) = (1%float, 2%float) /\
  contour_input RefLib msg_mono8 =
    Some (convertTo RefLib (image cv_mono8) (fst (scale_of 1 2)) (snd (scale_of 1 2))).
Proof.
  assert (H1 : toCvShare RefLib msg_mono8 = Some cv_mono8) by (vm_compute; reflexivity).
  assert (H2 : numChannels RefLib (encoding msg_mono8) = Some 1) by reflexivity.
  assert (H3 : encoding msg_mono8 <> TYPE_8UC1) by discriminate.
  assert (H4 : minMaxIdx RefLib (image cv_mono8) (ne_zero (image cv_mono8))
               = (1%float, 2%float)) by (vm_compute; reflexivity).
  split; [tauto|]. split; [exact H3|]. split; [exact H4|].
  exact (proj2 (proj2 (@mask_is_input_exactly_for_8UC1 RefLib msg_mono8 cv_mono8 H1 H2)
                  H3 1%float 2%float H4)).
Defined.

(** ** Regions that span the image *)

Section Attained.




End Attained.

(** The reference [findContours] keeps the two promises the callback relies
    on, on every matrix over 0 and 1 of up to 3 by 3 elements: contour points
    are element positions, and the contours cover the non-zero elements. *)
Lemma RefLib_contours_contract :
  forallb (fun wh : nat * nat =>
     forallb (fun m =>
        forallb (forallb (in_bounds (cols m) (rows m))) (findContours RefLib m)
        && contours_cover (findContours RefLib m) m)
       (binary_images (fst wh) (snd wh)))
    [(1, 1); (2, 1); (3, 1); (1, 2); (2, 2); (3, 2); (1, 3); (2, 3); (3, 3)]%nat = true.
Proof. vm_compute. reflexivity. Qed.


